(** * claude-transcribe: the batch PDF processor, embedded and verified

    A shallow embedding of [batch_pdf_processor_claude.py]
    (class [HistoricalDocumentProcessor]) and of the copy of
    [parse_source_from_path] in [test_single_claude.py].

    Python values are modelled as the interpreter has them: a [str] is a
    sequence of Unicode code points, an [int] is a [Z], [-1] is the
    "not found" answer of [str.find], a slice clips its bounds.  Calls that
    can raise return an [outcome]; code that prints, reads the clock or
    touches the file system runs in the small monad [Py] over a [world]. *)

From Stdlib Require Import ZArith NArith List String Ascii Bool Lia.
From Stdlib Require Import Strings.Byte DecimalString.
From stdpp Require Import base option list gmap.

(** ** Python strings *)

Module Str.

(** A Python [str]: a sequence of code points. *)
Definition codepoint := N.
Definition str := list codepoint.

(** [u "abc"] is the [str] of an ASCII literal. *)
Fixpoint u (s : string) : str :=
  match s with
  | EmptyString => []
  | String a r => N_of_ascii a :: u r
  end.
Arguments u s%_string.

Definition LF : str := [10%N].
Definition DQUOTE : str := [34%N].

Definition in_range (lo hi c : N) : bool := ((lo <=? c) && (c <=? hi))%N.

(** [str.isspace] on one character, the set CPython's [str.strip()] removes
    ([_PyUnicode_IsWhitespace]). *)
Definition isspace (c : codepoint) : bool :=
  in_range 9 13 c || in_range 28 32 c
  || (c =? 133)%N || (c =? 160)%N || (c =? 5760)%N
  || in_range 8192 8202 c || (c =? 8232)%N || (c =? 8233)%N
  || (c =? 8239)%N || (c =? 8287)%N || (c =? 12288)%N.

Fixpoint lstrip (s : str) : str :=
  match s with
  | [] => []
  | c :: r => if isspace c then lstrip r else s
  end.

Definition rstrip (s : str) : str := rev (lstrip (rev s)).

(** [s.strip()] *)
Definition strip (s : str) : str := rstrip (lstrip s).

(** [s.startswith(sub)] *)
Fixpoint startswith (s sub : str) : bool :=
  match sub, s with
  | [], _ => true
  | _ :: _, [] => false
  | a :: sub', b :: s' => (a =? b)%N && startswith s' sub'
  end.

(** First position, counted from [i], at which [sub] starts in [s]. *)
Fixpoint find_in (sub s : str) (i : nat) : option nat :=
  if startswith s sub then Some i
  else match s with
       | [] => None
       | _ :: s' => find_in sub s' (S i)
       end.

Definition len (s : str) : Z := Z.of_nat (length s).

(** A slice bound as Python normalises it: negative bounds count from the
    end, everything is clipped to [0 .. len s]. *)
Definition clip (s : str) (i : Z) : nat :=
  Z.to_nat (if i <? 0 then Z.max 0 (i + len s) else Z.min i (len s))%Z.

(** [s.find(sub, start)]: the lowest index at or after [start] where [sub]
    occurs, [-1] when there is none. *)
Definition find (s sub : str) (start : Z) : Z :=
  let st := (if start <? 0 then Z.max 0 (start + len s) else start)%Z in
  if (len s <? st)%Z then (-1)%Z
  else match find_in sub (drop (Z.to_nat st) s) (Z.to_nat st) with
       | Some i => Z.of_nat i
       | None => (-1)%Z
       end.

(** [s[a:b]] and [s[a:]] *)
Definition slice (s : str) (a b : Z) : str :=
  take (clip s b - clip s a)%nat (drop (clip s a) s).
Definition slice_from (s : str) (a : Z) : str := drop (clip s a) s.

(** [sep.join(parts)] *)
Fixpoint join (sep : str) (parts : list str) : str :=
  match parts with
  | [] => []
  | [p] => p
  | p :: rest => p ++ sep ++ join sep rest
  end.

(** [str(n)] for a natural number. *)
Definition of_nat (n : nat) : str :=
  u (NilEmpty.string_of_uint (Nat.to_uint n)).

(** [str(z)] for an [int]. *)
Definition of_Z (z : Z) : str :=
  if (z <? 0)%Z then u "-" ++ of_nat (Z.to_nat (- z)) else of_nat (Z.to_nat z).

(** [sub] occurs in [s] at index [k]. *)
Definition occurs_at (sub s : str) (k : nat) : Prop :=
  k <= length s ∧ sub `prefix_of` drop k s.

End Str.
Import Str.

(** ** Results of calls that can raise *)

(** The exception classes the scripts meet.  [YAMLError] stands for
    [yaml.YAMLError] and its subclasses; all of them derive from Python's
    [Exception]. *)
Inductive exn : Type :=
  | YAMLError | AttributeError | TypeError | IndexError | KeyError | OSError
  | ValueError | OverflowError.

Inductive outcome (A : Type) : Type :=
  | Returned (a : A)
  | Raised (e : exn).
Arguments Returned {A} a.
Arguments Raised {A} e.

(** Sequencing: the first exception ends the computation. *)
#[export] Instance outcome_mret : MRet outcome := λ A a, Returned a.
#[export] Instance outcome_mbind : MBind outcome := λ A B k o,
  match o with
  | Returned a => k a
  | Raised e => Raised e
  end.

(** [l[i]] with Python's negative indices; out of range raises. *)
Definition py_index {A} (l : list A) (i : Z) : outcome A :=
  let n := Z.of_nat (length l) in
  let j := (if i <? 0 then i + n else i)%Z in
  if (j <? 0)%Z then Raised IndexError
  else match l !! Z.to_nat j with
       | Some x => Returned x
       | None => Raised IndexError
       end.

(** ** pathlib, POSIX flavour *)

Module Pathlib.

(** A parsed [PurePosixPath]: the root anchor (empty for a relative path,
    otherwise what [splitroot] found) and the names after it. *)
Record Path : Type := mkPath { root : str; names : list str }.

Definition SEP : codepoint := 47%N.

(** [s.split('/')] *)
Fixpoint split_sep (s : str) : list str :=
  match s with
  | [] => [[]]
  | c :: r =>
      if (c =? SEP)%N then [] :: split_sep r
      else match split_sep r with
           | [] => [[c]]
           | w :: ws => (c :: w) :: ws
           end
  end.

Fixpoint lstrip_sep (s : str) : str :=
  match s with
  | [] => []
  | c :: r => if (c =? SEP)%N then lstrip_sep r else s
  end.

Definition str_eqb (a b : str) : bool := bool_decide (a = b).

(** [splitroot]: exactly two leading slashes are kept as the root, any other
    number of them is the root [/]. *)
Definition splitroot (part : str) : str * str :=
  match part with
  | c :: _ =>
      if (c =? SEP)%N then
        let stripped := lstrip_sep part in
        if (length part - length stripped =? 2)%nat
        then ([SEP; SEP], stripped) else ([SEP], stripped)
      else ([], part)
  | [] => ([], [])
  end.

(** [Path(s)]: empty components and [.] components are dropped. *)
Definition of_str (s : str) : Path :=
  let '(r, rel) := splitroot s in
  mkPath r (filter (λ x, x ≠ [] ∧ x ≠ u ".") (split_sep rel)).

(** [p.parts] *)
Definition parts (p : Path) : list str :=
  match root p with
  | [] => names p
  | _ :: _ => root p :: names p
  end.

(** [str(p)] *)
Definition to_str (p : Path) : str :=
  match root p, names p with
  | [], [] => u "."
  | _, _ => root p ++ join [SEP] (names p)
  end.

(** [p.parent]: a path without names is its own parent. *)
Definition parent (p : Path) : Path :=
  match names p with
  | [] => p
  | _ :: _ => mkPath (root p) (removelast (names p))
  end.

(** [p.name] *)
Definition name (p : Path) : str := List.last (names p) [].

(** [s.rfind('.')] *)
Definition rfind_dot (s : str) : Z :=
  match find_in (u ".") (rev s) 0 with
  | Some k => (len s - 1 - Z.of_nat k)%Z
  | None => (-1)%Z
  end.

(** [p.stem]: the name without its last suffix; a leading or a trailing dot
    does not start a suffix. *)
Definition stem (p : Path) : str :=
  let nm := name p in
  let i := rfind_dot nm in
  if ((0 <? i) && (i <? len nm - 1))%Z then slice nm 0 i else nm.

(** [p / s] for a string [s]: an anchored right operand replaces [p]. *)
Definition joinpath (p : Path) (s : str) : Path :=
  let q := of_str s in
  match root q with
  | [] => mkPath (root p) (names p ++ names q)
  | _ :: _ => q
  end.

Definition is_absolute (p : Path) : bool :=
  match root p with [] => false | _ :: _ => true end.

End Pathlib.
Import Pathlib.

(** ** parse_source_from_path *)

(** [parse_source_from_path(pdf_path)], the same text in the batch processor
    and in the single-document script. *)
Definition parse_source_from_path (pdf_path : Path) : outcome str :=
  let parts := parts pdf_path in
  if (length parts <? 5)%nat then Returned (to_str (parent pdf_path))
  else
    match py_index parts (-2), py_index parts (-3),
          py_index parts (-4), py_index parts (-5) with
    | Returned folder, Returned box, Returned collection, Returned archive =>
        Returned (folder ++ u ", " ++ box ++ u ", " ++ collection
                         ++ u ", " ++ archive)
    | Raised e, _, _, _ | _, Raised e, _, _
    | _, _, Raised e, _ | _, _, _, Raised e => Raised e
    end.

(** ** The host: clock, file system, standard output *)

Inductive month : Type :=
  | January | February | March | April | May | June
  | July | August | September | October | November | December.

(** What [datetime.now()] is read for: the calendar date. *)
Record date : Type := mkDate { year : nat; month_of : month; day : nat }.

(** [%B] in the C locale. *)
Definition month_name (m : month) : str :=
  match m with
  | January => u "January" | February => u "February" | March => u "March"
  | April => u "April" | May => u "May" | June => u "June"
  | July => u "July" | August => u "August" | September => u "September"
  | October => u "October" | November => u "November"
  | December => u "December"
  end.

(** [%d]: the day of the month on two digits. *)
Definition two_digits (n : nat) : str :=
  if (n <? 10)%nat then u "0" ++ of_nat n else of_nat n.

(** [d.strftime('%B %d, %Y')] *)
Definition strftime_B_d_Y (d : date) : str :=
  month_name (month_of d) ++ u " " ++ two_digits (day d) ++ u ", "
    ++ of_nat (year d).

(** The file system is the operating system's: the scripts only call it.
    A call that changes the file system returns or raises, and either way
    leaves the file system in a next state: a write that fails may have
    created or emptied the file, a [mkdir] that fails may have made some
    of the parents. *)
Class FileSystem (FS : Type) : Type := {
  (** [open(p, 'rb').read()] *)
  fs_read_bytes : FS → Path → outcome (list byte);
  (** [p.mkdir(parents=True, exist_ok=True)] *)
  fs_mkdir_parents : FS → Path → outcome unit * FS;
  (** [p.write_text(text, encoding='utf-8')] *)
  fs_write_text : FS → Path → str → outcome unit * FS
}.

(** One constructor per [print] call of the processor, carrying the values
    the printed line interpolates. *)
Inductive event : Type :=
  | Encoding (name : str)
  | WarnNoYaml
  | WarnYamlError (e : exn)
  | ProcessingResults
  | ItemNoContent (custom_id : str)
  | ItemWritten (custom_id : str)
  | ItemException (custom_id : str) (e : exn)
  | ItemErrored (custom_id kind message : str)
  | ItemOther (custom_id type : str)
  | Summary (succeeded failed : nat).

Record world (FS : Type) : Type := mkWorld {
  fs : FS;
  today : date;
  stdout : list event
}.
Arguments mkWorld {FS} fs today stdout.
Arguments fs {FS} w.
Arguments today {FS} w.
Arguments stdout {FS} w.

(** Python code with effects: from a world, a result or an exception,
    and the world as the call left it. *)
Definition Py (FS A : Type) : Type := world FS → outcome A * world FS.

Section PyMonad.
Context {FS : Type}.

Definition py_ret {A} (a : A) : Py FS A := λ w, (Returned a, w).

Definition py_bind {A B} (k : A → Py FS B) (m : Py FS A) : Py FS B :=
  λ w, match m w with
       | (Returned a, w') => k a w'
       | (Raised e, w') => (Raised e, w')
       end.

(** A call that touches nothing. *)
Definition lift {A} (o : outcome A) : Py FS A := λ w, (o, w).

Definition print (ev : event) : Py FS unit :=
  λ w, (Returned (), mkWorld (fs w) (today w) (stdout w ++ [ev])).

Definition now : Py FS date := λ w, (Returned (today w), w).

(** [try: body  except C as e: handler(e)], [catches] telling which
    exceptions are instances of [C]. *)
Definition try_except {A} (body : Py FS A) (catches : exn → bool)
    (handler : exn → Py FS A) : Py FS A :=
  λ w, match body w with
       | (Raised e, w') =>
           if catches e then handler e w' else (Raised e, w')
       | r => r
       end.

(** A file-system call that changes the file system; what it did to the
    file system stays, whether it returned or raised. *)
Definition fs_update (op : FS → outcome unit * FS) : Py FS unit :=
  λ w, match op (fs w) with
       | (r, fs') => (r, mkWorld fs' (today w) (stdout w))
       end.
End PyMonad.

#[export] Instance Py_mret {FS} : MRet (Py FS) := @py_ret FS.
#[export] Instance Py_mbind {FS} : MBind (Py FS) := @py_bind FS.

Definition is_YAMLError (e : exn) : bool :=
  match e with YAMLError => true | _ => false end.

(** [except Exception] *)
Definition is_Exception (e : exn) : bool := true.

(** ** base64 *)

Module Base64.

(** The standard alphabet. *)
Definition digit (i : N) : codepoint :=
  (if i <? 26 then 65 + i
   else if i <? 52 then 97 + (i - 26)
   else if i <? 62 then 48 + (i - 52)
   else if i =? 62 then 43 else 47)%N.

Definition PAD : codepoint := 61%N.

(** [base64.standard_b64encode(data)], three bytes to four characters. *)
Fixpoint encode (data : list N) : str :=
  match data with
  | [] => []
  | [a] =>
      [digit (N.shiftr a 2); digit (N.shiftl (N.land a 3) 4); PAD; PAD]
  | [a; b] =>
      [digit (N.shiftr a 2);
       digit (N.lor (N.shiftl (N.land a 3) 4) (N.shiftr b 4));
       digit (N.shiftl (N.land b 15) 2); PAD]
  | a :: b :: c :: rest =>
      digit (N.shiftr a 2)
      :: digit (N.lor (N.shiftl (N.land a 3) 4) (N.shiftr b 4))
      :: digit (N.lor (N.shiftl (N.land b 15) 2) (N.shiftr c 6))
      :: digit (N.land c 63)
      :: encode rest
  end.

Definition standard_b64encode (data : list byte) : str :=
  encode (map Byte.to_N data).

End Base64.

(** ** The processor and its requests *)

(** [self]: the model name and the system prompt ([self.client], the API
    client, belongs to the hosted service). *)
Record processor : Type := mkProcessor { model : str; system_prompt : str }.

Definition lines (ls : list str) : str := join LF ls.

(** ["..."] inside a prompt. *)
Definition q (s : string) : str := DQUOTE ++ u s ++ DQUOTE.

Definition SYSTEM_PROMPT : str := lines [
  u "You are a precise historical document analyst. Your task is to:";
  u "";
  u "1. Extract metadata and create a brief overview of the document";
  u "2. Transcribe the document EXACTLY as written, preserving spelling, punctuation, and formatting";
  u "3. Extract entities (people, organizations, locations, themes) that are EXPLICITLY mentioned";
  u "4. Never invent, infer, or hallucinate information not present in the source";
  u "5. For multi-page documents, insert HTML comments to mark page breaks";
  u "";
  u "CRITICAL RULES:";
  u "- Only include entities you can directly cite from the document";
  u "- If uncertain about an entity, DO NOT include it";
  u "- Preserve original spellings and phrasings";
  u "- Mark unclear text as [illegible] rather than guessing";
  u "- Do not modernize or correct historical spelling/grammar";
  u "- Do not add interpretive commentary beyond the brief overview";
  u "- For page breaks, insert: <!-- page 1 -->, <!-- page 2 -->, etc.";
  u "- The overview should be 2-3 sentences summarizing the document's content";
  u "";
  u "Output format must be valid YAML that can be parsed programmatically."
].

(** [HistoricalDocumentProcessor(api_key, model)] *)
Definition HistoricalDocumentProcessor (api_key model : str) : processor :=
  mkProcessor model SYSTEM_PROMPT.

Definition DEFAULT_MODEL : str := u "claude-sonnet-4-5-20250929".

(** [create_analysis_prompt(file_path, source)]: the template with the
    source label interpolated. *)
Definition create_analysis_prompt (self : processor) (file_path source : str)
    : str :=
  lines [
    u "Analyze this historical document and provide:";
    u "";
    u "1. METADATA: Structured information in YAML format";
    u "2. OVERVIEW: A brief 2-3 sentence summary of the document";
    u "3. TRANSCRIPTION: Exact text from the document";
    u "";
    u "Output ONLY valid YAML in this exact structure:";
    u "";
    u "```yaml";
    u "title: " ++ q "Document title or first line if untitled";
    u "creator: " ++ q "[[Author Name]]"
      ++ u "  # Use wiki-link format if author identified, otherwise empty string";
    u "publication: " ++ q "Publication name if present, otherwise empty string";
    u "source: " ++ DQUOTE ++ source ++ DQUOTE;
    u "date: " ++ q "Date in YYYY-MM-DD format if present, otherwise empty string";
    u "people:";
    u "  - " ++ q "[[Person Name]]"
      ++ u "  # Use wiki-link format, only if explicitly mentioned";
    u "organization:";
    u "  - " ++ q "[[Organization Name]]"
      ++ u "  # Use wiki-link format, only if explicitly mentioned";
    u "locations:";
    u "  - " ++ q "[[Location Name]]"
      ++ u "  # Use wiki-link format, only if explicitly mentioned";
    u "themes:";
    u "  - " ++ q "[[Theme]]" ++ u "  # Major topics/themes, use wiki-link format";
    u "overview: "
      ++ q "Brief 2-3 sentence summary of the document's content and significance";
    u "```";
    u "";
    u "Then provide the transcription in markdown format.";
    u "";
    u "IMPORTANT FOR MULTI-PAGE DOCUMENTS:";
    u "- Insert <!-- page 1 --> at the start of the first page";
    u "- Insert <!-- page 2 --> at the start of the second page, etc.";
    u "- Place the comment on its own line before the page content";
    u "";
    u "Remember:";
    u "- Only include entities EXPLICITLY present in the document";
    u "- Use [[wiki-link]] format for all entities";
    u "- Preserve original text exactly";
    u "- Mark unclear sections as [illegible]";
    u "- Add page break comments for multi-page documents";
    u "- The overview should be concise and factual, not interpretive";
    u ""
  ].

(** A decimal literal such as [0.1]: [digits * 10 ^ exponent]. *)
Record decimal_literal : Type := mkDecimal { digits : Z; exponent : Z }.

Inductive content_block : Type :=
  | document_block (source_type media_type data : str)
  | text_block (text : str).

Record message : Type := mkMessage { role : str; content : list content_block }.

Record params : Type := mkParams {
  params_model : str;
  max_tokens : Z;
  temperature : decimal_literal;
  system : str;
  messages : list message
}.

(** One entry of the batch: the request unit. *)
Record request : Type := mkRequest { custom_id : str; request_params : params }.

(** The [request = {...}] dictionary built for one file. *)
Definition request_dict (self : processor) (pdf_path : Path)
    (pdf_base64 source : str) : request :=
  mkRequest (stem pdf_path)
    (mkParams (model self) 8192 (mkDecimal 1 (-1)) (system_prompt self)
       [mkMessage (u "user")
          [document_block (u "base64") (u "application/pdf") pdf_base64;
           text_block (create_analysis_prompt self (to_str pdf_path) source)]]).

Section Requests.
Context {FS : Type} `{FileSystem FS}.

(** [encode_pdf(pdf_path)] *)
Definition encode_pdf (pdf_path : Path) : Py FS str :=
  λ w, match fs_read_bytes (fs w) pdf_path with
       | Returned data => (Returned (Base64.standard_b64encode data), w)
       | Raised e => (Raised e, w)
       end.

(** The [for pdf_path in pdf_files] loop, [requests] being the list
    built so far. *)
Fixpoint prepare_loop (self : processor) (pdf_files : list Path)
    (requests : list request) : Py FS (list request) :=
  match pdf_files with
  | [] => mret requests
  | pdf_path :: rest =>
      print (Encoding (name pdf_path));;
      pdf_base64 ← encode_pdf pdf_path;
      source ← lift (parse_source_from_path pdf_path);
      prepare_loop self rest
        (requests ++ [request_dict self pdf_path pdf_base64 source])
  end.

(** [prepare_batch_requests(pdf_files)] *)
Definition prepare_batch_requests (self : processor)
    (pdf_files : list Path) : Py FS (list request) :=
  prepare_loop self pdf_files [].
End Requests.

(** ** Decoded YAML *)

(** What [yaml.safe_load] can hand back: [None], booleans, integers,
    strings, lists and dictionaries (in insertion order); [YOther] is any
    other scalar it constructs (a float, a date), kept as the text [str()]
    shows for it and its truth value. *)
#[local] Set Warnings "-register-all".
Inductive yaml_value : Type :=
  | YNull
  | YBool (b : bool)
  | YInt (z : Z)
  | YStr (s : str)
  | YSeq (items : list yaml_value)
  | YMap (entries : list (yaml_value * yaml_value))
  | YOther (shown : str) (truth : bool).
#[local] Set Warnings "register-all".

(** The empty dictionary [{}]. *)
Definition empty_dict : yaml_value := YMap [].

(** The two library functions the processor relies on without defining
    them: PyYAML's loader, and Python's [repr], which [str()] of a list or
    of a dictionary applies to the members. *)
Class Library : Type := {
  safe_load : str → outcome yaml_value;
  repr : yaml_value → str
}.

Definition key_is (key : str) (entry : yaml_value * yaml_value) : bool :=
  match entry.1 with
  | YStr s => str_eqb s key
  | _ => false
  end.

(** [d.get(key)] on the entries of a dictionary *)
Definition lookup_key (entries : list (yaml_value * yaml_value)) (key : str)
    : option yaml_value :=
  snd <$> List.find (key_is key) entries.

(** [metadata.get(key, default)]; only a dictionary has the method. *)
Definition dict_get (metadata : yaml_value) (key : str)
    (dflt : yaml_value) : outcome yaml_value :=
  match metadata with
  | YMap entries => Returned (default dflt (lookup_key entries key))
  | _ => Raised AttributeError
  end.

(** Truth value of an object, as [if v:] tests it. *)
Definition truthy (v : yaml_value) : bool :=
  match v with
  | YNull => false
  | YBool b => b
  | YInt z => negb (z =? 0)%Z
  | YStr s => negb (str_eqb s [])
  | YSeq items => match items with [] => false | _ => true end
  | YMap entries => match entries with [] => false | _ => true end
  | YOther _ t => t
  end.

(** The elements [for x in v] visits; scalars other than strings are not
    iterable. *)
Definition py_iter (v : yaml_value) : outcome (list yaml_value) :=
  match v with
  | YSeq items => Returned items
  | YStr s => Returned (map (λ c, YStr [c]) s)
  | YMap entries => Returned (map fst entries)
  | _ => Raised TypeError
  end.

Section Values.
Context `{Library}.

(** [str(v)], which an f-string applies to an interpolated value. *)
Definition py_str (v : yaml_value) : str :=
  match v with
  | YNull => u "None"
  | YBool true => u "True"
  | YBool false => u "False"
  | YInt z => of_Z z
  | YStr s => s
  | YSeq items => u "[" ++ join (u ", ") (map repr items) ++ u "]"
  | YMap entries =>
      u "{" ++ join (u ", ")
                (map (λ kv, repr kv.1 ++ u ": " ++ repr kv.2) entries)
        ++ u "}"
  | YOther shown _ => shown
  end.
End Values.

(** ** parse_claude_response *)

Definition FENCE_OPEN : str := u "```yaml".
Definition FENCE : str := u "```".

Section Parse.
Context {FS : Type} `{Library}.

(** [parse_claude_response(response_text)] *)
Definition parse_claude_response (response_text : str)
    : Py FS (yaml_value * str) :=
  let yaml_start := find response_text FENCE_OPEN 0 in
  let yaml_end := find response_text FENCE (yaml_start + 7) in
  if ((yaml_start =? -1) || (yaml_end =? -1))%Z then
    print WarnNoYaml;;
    mret (empty_dict, response_text)
  else
    let yaml_content :=
      strip (slice response_text (yaml_start + 7) yaml_end) in
    metadata ← try_except (lift (safe_load yaml_content)) is_YAMLError
                 (λ e, print (WarnYamlError e);; mret empty_dict);
    let transcription := strip (slice_from response_text (yaml_end + 3)) in
    mret (metadata, transcription).
End Parse.

(** ** create_obsidian_document *)

(** The [doc_metadata] dictionary: every required field, present or
    defaulted. *)
Record doc_metadata : Type := mkDoc {
  title : yaml_value;
  creator : yaml_value;
  publication : yaml_value;
  source : yaml_value;
  date_field : yaml_value;
  people : yaml_value;
  organization : yaml_value;
  locations : yaml_value;
  themes : yaml_value;
  tags : list str;
  added : str
}.

(** The [doc_metadata = {...}] statement. *)
Definition ensure_fields (metadata : yaml_value) (today : date)
    : outcome doc_metadata :=
  title ← dict_get metadata (u "title") (YStr []);
  creator ← dict_get metadata (u "creator") (YStr []);
  publication ← dict_get metadata (u "publication") (YStr []);
  source ← dict_get metadata (u "source") (YStr []);
  date ← dict_get metadata (u "date") (YStr []);
  people ← dict_get metadata (u "people") (YSeq []);
  organization ← dict_get metadata (u "organization") (YSeq []);
  locations ← dict_get metadata (u "locations") (YSeq []);
  themes ← dict_get metadata (u "themes") (YSeq []);
  Returned (mkDoc title creator publication source date people organization
              locations themes [u "to-do"; u "source/primary"]
              (strftime_B_d_Y today)).

Section Render.
Context `{Library}.

(** [f'key: {value}' if value else 'key:'] *)
Definition optional_line (key : str) (value : yaml_value) : str :=
  if truthy value then key ++ u ": " ++ py_str value else key ++ u ":".

(** The lines one [if value: for x in value: append(f'  - {x}')] block
    appends. *)
Definition list_lines (value : yaml_value) : outcome (list str) :=
  if truthy value then
    elements ← py_iter value;
    Returned (map (λ x, u "  - " ++ py_str x) elements)
  else Returned [].

(** [frontmatter_lines] as it stands when the header is complete. *)
Definition frontmatter_lines (d : doc_metadata) : outcome (list str) :=
  let frontmatter_lines :=
    [u "---";
     u "title: " ++ py_str (title d);
     optional_line (u "creator") (creator d);
     optional_line (u "publication") (publication d);
     u "source: " ++ py_str (source d);
     optional_line (u "date") (date_field d);
     u "people:"] in
  people_lines ← list_lines (people d);
  let frontmatter_lines := frontmatter_lines ++ people_lines in
  let frontmatter_lines := frontmatter_lines ++ [u "organization:"] in
  organization_lines ← list_lines (organization d);
  let frontmatter_lines := frontmatter_lines ++ organization_lines in
  let frontmatter_lines := frontmatter_lines ++ [u "locations:"] in
  locations_lines ← list_lines (locations d);
  let frontmatter_lines := frontmatter_lines ++ locations_lines in
  let frontmatter_lines := frontmatter_lines ++ [u "themes:"] in
  themes_lines ← list_lines (themes d);
  let frontmatter_lines := frontmatter_lines ++ themes_lines in
  Returned (frontmatter_lines ++
    [u "tags:"; u "  - to-do"; u "  - source/primary";
     u "added: " ++ added d;
     u "---" ++ LF]).

(** [content_parts] *)
Definition content_parts (frontmatter_lines : list str)
    (overview : yaml_value) (pdf_filename transcription : str)
    : list str :=
  [join LF frontmatter_lines;
   u "## Overview" ++ LF;
   (if truthy overview then py_str overview ++ LF else LF);
   u "## Images" ++ LF;
   u "![[" ++ pdf_filename ++ u "]]" ++ LF;
   u "## Notes" ++ LF ++ LF;
   u "## Connections" ++ LF ++ LF;
   u "## Transcription" ++ LF;
   transcription].

(** The text [create_obsidian_document] writes, on the date [today]. *)
Definition document_text (metadata : yaml_value) (today : date)
    (transcription pdf_filename : str) : outcome str :=
  d ← ensure_fields metadata today;
  overview ← dict_get metadata (u "overview") (YStr []);
  frontmatter_lines ← frontmatter_lines d;
  Returned (join LF (content_parts frontmatter_lines overview
                       pdf_filename transcription)).

Context {FS : Type} `{FileSystem FS}.

(** [create_obsidian_document(metadata, transcription, output_path,
    pdf_filename)] *)
Definition create_obsidian_document (metadata : yaml_value)
    (transcription : str) (output_path : Path) (pdf_filename : str)
    : Py FS unit :=
  today ← now;
  text ← lift (document_text metadata today transcription pdf_filename);
  fs_update (λ fs, fs_write_text fs output_path text).
End Render.

(** ** process_batch_results *)

(** A content block of a reply: text, or a block of another type. *)
Inductive reply_block : Type :=
  | reply_text (text : str)
  | reply_other (type : str).

(** [result['result']], tagged by its [type]; an errored result carries
    the dictionary [result['result']['error']], as [model_dump] made it. *)
Inductive result_body : Type :=
  | succeeded (content : list reply_block)
  | errored (error : list (yaml_value * yaml_value))
  | canceled
  | expired.

(** [d[key]] on the entries of a dictionary; a missing key raises. *)
Definition subscript (entries : list (yaml_value * yaml_value)) (key : str)
    : outcome yaml_value :=
  match lookup_key entries key with
  | Some v => Returned v
  | None => Raised KeyError
  end.

(** One item of the batch results; [result_id] is the [custom_id] entry,
    which [result.get('custom_id', 'unknown')] reads. *)
Record batch_result : Type := mkResult {
  result_id : option str;
  result : result_body
}.

Definition type_name (r : result_body) : str :=
  match r with
  | succeeded _ => u "succeeded"
  | errored _ => u "errored"
  | canceled => u "canceled"
  | expired => u "expired"
  end.

(** [response_text]: the text blocks of the reply, concatenated. *)
Fixpoint response_text_of (content : list reply_block) : str :=
  match content with
  | [] => []
  | reply_text text :: rest => text ++ response_text_of rest
  | reply_other _ :: rest => response_text_of rest
  end.

(** The counters [succeeded] and [failed] of the loop. *)
Record counters : Type := mkCounters { n_succeeded : nat; n_failed : nat }.

Definition count_success (c : counters) : counters :=
  mkCounters (S (n_succeeded c)) (n_failed c).
Definition count_failure (c : counters) : counters :=
  mkCounters (n_succeeded c) (S (n_failed c)).

(** The items counted so far. *)
Definition items_counted (c : counters) : nat :=
  (n_succeeded c + n_failed c)%nat.

Section Results.
Context {FS : Type} `{FileSystem FS} `{Library}.

(** The body of the [for result in results] loop. *)
Definition process_result (output_dir : Path) (r : batch_result)
    (c : counters) : Py FS counters :=
  let custom_id := default (u "unknown") (result_id r) in
  match result r with
  | succeeded content =>
      match content with
      | [] =>
          print (ItemNoContent custom_id);;
          mret (count_failure c)
      | _ :: _ =>
          let response_text := response_text_of content in
          try_except
            ('(metadata, transcription) ← parse_claude_response response_text;
             let output_path := joinpath output_dir (custom_id ++ u ".md") in
             let pdf_filename := custom_id ++ u ".pdf" in
             create_obsidian_document metadata transcription output_path
               pdf_filename;;
             print (ItemWritten custom_id);;
             mret (count_success c))
            is_Exception
            (λ e, print (ItemException custom_id e);;
                  mret (count_failure c))
      end
  | errored error =>
      kind ← lift (subscript error (u "type"));
      message ← lift (subscript error (u "message"));
      print (ItemErrored custom_id (py_str kind) (py_str message));;
      mret (count_failure c)
  | other =>
      print (ItemOther custom_id (type_name other));;
      mret (count_failure c)
  end.

(** The loop. *)
Fixpoint process_results (output_dir : Path) (results : list batch_result)
    (c : counters) : Py FS counters :=
  match results with
  | [] => mret c
  | r :: rest =>
      c' ← process_result output_dir r c;
      process_results output_dir rest c'
  end.

(** [process_batch_results(results, output_dir)] *)
Definition process_batch_results (results : list batch_result)
    (output_dir : Path) : Py FS unit :=
  fs_update (λ fs, fs_mkdir_parents fs output_dir);;
  print ProcessingResults;;
  c ← process_results output_dir results (mkCounters 0 0);
  print (Summary (n_succeeded c) (n_failed c)).
End Results.

(** ** Vocabulary of the specification *)

(** [sub] occurs in [s] at [j], and nowhere in [from .. j-1]. *)
Definition first_at (sub s : str) (from j : nat) : Prop :=
  (from <= j)%nat ∧ occurs_at sub s j
  ∧ ∀ k, (from <= k < j)%nat → ¬ occurs_at sub s k.

(** [sub] does not occur in [s] at or after [from]. *)
Definition absent_from (sub s : str) (from : nat) : Prop :=
  ∀ k, (from <= k)%nat → ¬ occurs_at sub s k.

(** [text] holds a fenced block: [pre] runs up to the first opening marker,
    [block] is what stands strictly between that marker and the first
    closing marker after it, [rest] is everything after that closing
    marker. *)
Definition fenced (text pre block rest : str) : Prop :=
  text = pre ++ FENCE_OPEN ++ block ++ FENCE ++ rest
  ∧ first_at FENCE_OPEN text 0 (length pre)
  ∧ first_at FENCE text (length pre + 7) (length pre + 7 + length block).

(** [text] holds no fenced block: the opening marker is absent, or no
    closing marker follows the first opening marker. *)
Definition unfenced (text : str) : Prop :=
  absent_from FENCE_OPEN text 0
  ∨ ∃ i, first_at FENCE_OPEN text 0 i ∧ absent_from FENCE text (i + 7).

(** The world after one more printed line. *)
Definition printed {FS} (w : world FS) (ev : event) : world FS :=
  mkWorld (fs w) (today w) (stdout w ++ [ev]).

(** The world after the file system moved to [fs']. *)
Definition with_fs {FS} (w : world FS) (fs' : FS) : world FS :=
  mkWorld fs' (today w) (stdout w).

(** The header: the rule, the five scalar keys, each sequence key followed
    by the lines given for it, the tags, the date of generation, the
    rule. *)
Definition header_shape `{Library} (d : doc_metadata)
    (people_lines organization_lines locations_lines themes_lines : list str)
    : list str :=
  [u "---";
   u "title: " ++ py_str (title d);
   optional_line (u "creator") (creator d);
   optional_line (u "publication") (publication d);
   u "source: " ++ py_str (source d);
   optional_line (u "date") (date_field d)]
  ++ [u "people:"] ++ people_lines
  ++ [u "organization:"] ++ organization_lines
  ++ [u "locations:"] ++ locations_lines
  ++ [u "themes:"] ++ themes_lines
  ++ [u "tags:"; u "  - to-do"; u "  - source/primary";
      u "added: " ++ added d;
      u "---" ++ LF].

(** The keys of the header, in the order the code emits them. *)
Definition HEADER_KEYS : list str :=
  [u "title"; u "creator"; u "publication"; u "source"; u "date";
   u "people"; u "organization"; u "locations"; u "themes";
   u "tags"; u "added"].

(** The keys of the header as the specification names them. *)
Definition SPEC_HEADER_KEYS : list str :=
  [u "title"; u "creator"; u "publication"; u "source"; u "date";
   u "people"; u "organizations"; u "locations"; u "themes";
   u "tags"; u "added"].

(** The key a header line opens with: a line that starts with a space or
    a dash is an element line or a rule, not a key line. *)
Definition key_of_line (line : str) : option str :=
  match line with
  | [] => None
  | c :: _ =>
      if (c =? 32)%N || (c =? 45)%N then None
      else match find_in (u ":") line 0 with
           | Some i => Some (take i line)
           | None => None
           end
  end.

Definition header_keys (frontmatter_lines : list str) : list str :=
  omap key_of_line frontmatter_lines.

(** The lines a sequence of elements is rendered to. *)
Definition element_lines `{Library} (elements : list yaml_value) : list str :=
  map (λ x, u "  - " ++ py_str x) elements.

(** The value under a sequence-valued key: the list [elements], or nothing
    at all (then [elements] is empty). *)
Definition sequence_under (entries : list (yaml_value * yaml_value))
    (key : str) (elements : list yaml_value) : Prop :=
  lookup_key entries key = Some (YSeq elements)
  ∨ (lookup_key entries key = None ∧ elements = []).

(** A value the [if value: for x in value] block accepts: one that is false,
    or one that can be iterated. *)
Definition listlike (v : yaml_value) : Prop :=
  truthy v = true → ∃ elements, py_iter v = Returned elements.

(** The requests a list of files stands for, given what reading each file
    yields: a function of the paths and of the file contents only. *)
Fixpoint requests_for (self : processor) (read : Path → outcome (list byte))
    (pdf_files : list Path) : outcome (list request) :=
  match pdf_files with
  | [] => Returned []
  | pdf_path :: rest =>
      data ← read pdf_path;
      source ← parse_source_from_path pdf_path;
      requests ← requests_for self read rest;
      Returned (request_dict self pdf_path
                  (Base64.standard_b64encode data) source :: requests)
  end.

(** ** Doubles for the examples *)

(** An in-memory file system: a path holds the bytes put there beforehand
    or the text written to it; a file is written only into a directory
    that exists.  Reading back written text as bytes is not modelled. *)
Inductive file_content : Type :=
  | binary (data : list byte)
  | written (text : str).

Record mem_fs : Type := mkMemFs {
  directories : gset str;
  files : gmap str file_content
}.

(** [p] and the directories above it. *)
Definition self_and_ancestors (p : Path) : list str :=
  map (λ k, to_str (mkPath (root p) (take k (names p))))
      (seq 0 (S (length (names p)))).

#[export] Instance mem_fs_ops : FileSystem mem_fs := {|
  fs_read_bytes fs p :=
    match files fs !! to_str p with
    | Some (binary data) => Returned data
    | _ => Raised OSError
    end;
  fs_mkdir_parents fs p :=
    (Returned (),
     mkMemFs (directories fs ∪ list_to_set (self_and_ancestors p))
       (files fs));
  fs_write_text fs p text :=
    if bool_decide (to_str (parent p) ∈ directories fs)
    then (Returned (),
          mkMemFs (directories fs)
            (<[to_str p := written text]> (files fs)))
    else (Raised OSError, fs)
|}.

(** [repr] for the values of the examples; exact for strings that hold no
    quote, backslash or control character. *)
Fixpoint repr_plain (v : yaml_value) : str :=
  match v with
  | YNull => u "None"
  | YBool true => u "True"
  | YBool false => u "False"
  | YInt z => of_Z z
  | YStr s => u "'" ++ s ++ u "'"
  | YSeq items => u "[" ++ join (u ", ") (map repr_plain items) ++ u "]"
  | YMap entries =>
      u "{" ++ join (u ", ")
                (map (λ kv, match kv with
                            | (k, x) => repr_plain k ++ u ": " ++ repr_plain x
                            end) entries)
        ++ u "}"
  | YOther shown _ => shown
  end.

(** What PyYAML's [safe_load] answers on the documents of the examples;
    on any other text the double raises. *)
Definition loader_table : list (str * outcome yaml_value) := [
  (u "", Returned YNull);
  (u "title: Letter",
   Returned (YMap [(YStr (u "title"), YStr (u "Letter"))]));
  (u "title: Letter" ++ LF ++ u "people:" ++ LF ++ u "  - '[[Jane Doe]]'",
   Returned (YMap [(YStr (u "title"), YStr (u "Letter"));
                   (YStr (u "people"), YSeq [YStr (u "[[Jane Doe]]")])]));
  (LF ++ u "  title: Letter" ++ LF ++ u "  creator: Jane" ++ LF,
   Returned (YMap [(YStr (u "title"), YStr (u "Letter"));
                   (YStr (u "creator"), YStr (u "Jane"))]));
  (u "title: Letter" ++ LF ++ u "  creator: Jane", Raised YAMLError);
  (u "- a", Returned (YSeq [YStr (u "a")]));
  (u "title: [", Raised YAMLError)
].

Definition table_load (s : str) : outcome yaml_value :=
  match List.find (λ row, str_eqb row.1 s) loader_table with
  | Some row => row.2
  | None => Raised YAMLError
  end.

Definition table_library : Library :=
  {| safe_load := table_load; repr := repr_plain |}.

(** A loader that raises an exception that is not a YAML error. *)
Definition failing_library : Library :=
  {| safe_load := λ _, Raised ValueError; repr := repr_plain |}.

Definition empty_fs : mem_fs := mkMemFs ∅ ∅.
Definition a_day : date := mkDate 2025 April 5.
Definition world0 : world mem_fs := mkWorld empty_fs a_day [].

(** A reply whose YAML block is indented, and what stands in it. *)
Definition indented_block : str :=
  LF ++ u "  title: Letter" ++ LF ++ u "  creator: Jane" ++ LF.
Definition indented_reply : str :=
  FENCE_OPEN ++ indented_block ++ FENCE ++ LF ++ u "Dear Sir".
Definition indented_mapping : list (yaml_value * yaml_value) :=
  [(YStr (u "title"), YStr (u "Letter"));
   (YStr (u "creator"), YStr (u "Jane"))].

(** A reply with two fenced blocks. *)
Definition letter_block : str := LF ++ u "title: Letter" ++ LF.
Definition letter_rest : str :=
  LF ++ u "Dear Sir" ++ LF ++ FENCE_OPEN ++ LF ++ u "x: 1" ++ LF ++ FENCE ++ LF.
Definition letter_reply : str :=
  u "Here it is:" ++ LF ++ FENCE_OPEN ++ letter_block ++ FENCE ++ letter_rest.
Definition letter_mapping : list (yaml_value * yaml_value) :=
  [(YStr (u "title"), YStr (u "Letter"))].

(** A reply without any fence, with blanks around it. *)
Definition plain_reply : str := u "  Dear Sir" ++ LF.

(** A reply whose opening fence is never closed. *)
Definition unclosed_reply : str := FENCE_OPEN ++ LF ++ u "title: Letter" ++ LF.

(** A reply whose block holds nothing. *)
Definition empty_block_reply : str :=
  FENCE_OPEN ++ LF ++ FENCE ++ LF ++ u "Dear Sir".

(** Two PDF files in the archive tree, and a world that holds them. *)
Definition letter_pdf : Path :=
  of_str (u "/data/Archive/Collection/Box1/FolderA/letter.pdf").
Definition memo_pdf : Path := of_str (u "scans/memo.v2.pdf").

Definition archive_fs : mem_fs :=
  mkMemFs ∅
    (<[to_str letter_pdf := binary [x25; x50; x44; x46]]>
       (<[to_str memo_pdf := binary [x25; x50]]> ∅)).
Definition archive_world : world mem_fs := mkWorld archive_fs a_day [].

(** The same files in a file system that also holds other things, on
    another day, after other output. *)
Definition other_world : world mem_fs :=
  mkWorld
    (mkMemFs {[u "/tmp"]}
       (<[u "/tmp/note.md" := written (u "x")]> (files archive_fs)))
    (mkDate 2026 January 31) [ProcessingResults].

Definition a_processor : processor :=
  HistoricalDocumentProcessor (u "sk-test") DEFAULT_MODEL.

(** Metadata that names its organisations under the key of the
    specification. *)
Definition acme_mapping : list (yaml_value * yaml_value) :=
  [(YStr (u "title"), YStr (u "Letter"));
   (YStr (u "organizations"), YSeq [YStr (u "[[Acme]]")])].

(** Metadata with one person and two themes. *)
Definition jane_mapping : list (yaml_value * yaml_value) :=
  [(YStr (u "title"), YStr (u "Letter"));
   (YStr (u "people"), YSeq [YStr (u "[[Jane Doe]]")]);
   (YStr (u "themes"), YSeq [YStr (u "[[Trade]]"); YStr (u "[[Law]]")]);
   (YStr (u "locations"), YSeq [])].

(** The header of a document whose metadata holds a title only. *)
Definition letter_header : list str :=
  [u "---"; u "title: Letter"; u "creator:"; u "publication:"; u "source: ";
   u "date:"; u "people:"; u "organization:"; u "locations:"; u "themes:";
   u "tags:"; u "  - to-do"; u "  - source/primary";
   u "added: April 05, 2025"; u "---" ++ LF].

(** A world whose output directory exists. *)
Definition notes_dir : Path := of_str (u "notes").
Definition notes_world : world mem_fs :=
  mkWorld (mkMemFs {[u "notes"]} ∅) a_day [].

(** The document written for [jane_mapping]. *)
Definition jane_document : str := lines [
  u "---"; u "title: Letter"; u "creator:"; u "publication:"; u "source: ";
  u "date:"; u "people:"; u "  - [[Jane Doe]]"; u "organization:";
  u "locations:"; u "themes:"; u "  - [[Trade]]"; u "  - [[Law]]";
  u "tags:"; u "  - to-do"; u "  - source/primary";
  u "added: April 05, 2025"; u "---"; u "";
  u "## Overview"; u ""; u ""; u "";
  u "## Images"; u ""; u "![[letter.pdf]]"; u "";
  u "## Notes"; u ""; u ""; u "## Connections"; u ""; u "";
  u "## Transcription"; u ""; u "Dear Sir"
].

(** A batch of four results: a good reply, an errored item, a reply without
    content, an expired item. *)
Definition letter_result : batch_result :=
  mkResult (Some (u "letter"))
    (succeeded [reply_other (u "thinking"); reply_text letter_reply]).
Definition errored_result : batch_result :=
  mkResult (Some (u "memo"))
    (errored [(YStr (u "type"), YStr (u "invalid_request_error"));
              (YStr (u "message"), YStr (u "too many pages"))]).
Definition hollow_result : batch_result :=
  mkResult (Some (u "blank")) (succeeded []).
Definition expired_result : batch_result := mkResult None expired.
Definition a_batch : list batch_result :=
  [letter_result; errored_result; hollow_result; expired_result].

(** A reply with an empty block, and an item whose identifier names a
    directory that does not exist. *)
Definition empty_block_result : batch_result :=
  mkResult (Some (u "void")) (succeeded [reply_text empty_block_reply]).
Definition nested_result : batch_result :=
  mkResult (Some (u "box1/letter")) (succeeded [reply_text letter_reply]).

(** ** Further vocabulary *)

(** Every character of [s] is whitespace. *)
Definition blank (s : str) : Prop := Forall (λ c, isspace c = true) s.

(** [s] neither starts nor ends with whitespace. *)
Definition trimmed (s : str) : Prop :=
  (∀ c t, s = c :: t → isspace c = false)
  ∧ (∀ t c, s = t ++ [c] → isspace c = false).

Definition DOT : codepoint := 46%N.

(** The header of a document without metadata, generated on [today]. *)
Definition empty_header (today : date) : list str :=
  [u "---"; u "title: "; u "creator:"; u "publication:"; u "source: ";
   u "date:"; u "people:"; u "organization:"; u "locations:"; u "themes:";
   u "tags:"; u "  - to-do"; u "  - source/primary";
   u "added: " ++ strftime_B_d_Y today; u "---" ++ LF].

(** The identifier [process_batch_results] uses for a result. *)
Definition id_of (r : batch_result) : str :=
  default (u "unknown") (result_id r).

(** No block of the reply is a text block. *)
Definition without_text (content : list reply_block) : Prop :=
  Forall (λ b, match b with reply_text _ => False | reply_other _ => True end)
    content.

(** The keys [create_obsidian_document] reads. *)
Definition KNOWN_KEYS : list str :=
  [u "title"; u "creator"; u "publication"; u "source"; u "date";
   u "people"; u "organization"; u "locations"; u "themes"; u "overview"].

(** A reply made of blocks that are not text. *)
Definition thinking_result : batch_result :=
  mkResult (Some (u "mute"))
    (succeeded [reply_other (u "thinking"); reply_other (u "tool_use")]).

(** A reply without a fence. *)
Definition plain_result : batch_result :=
  mkResult (Some (u "plain")) (succeeded [reply_text plain_reply]).

(** A file system that refuses everything. *)
Definition locked_fs : FileSystem unit := {|
  fs_read_bytes _ _ := Raised OSError;
  fs_mkdir_parents _ _ := (Raised OSError, ());
  fs_write_text _ _ _ := (Raised OSError, ())
|}.

(** A reply whose block is not YAML. *)
Definition broken_reply : str :=
  FENCE_OPEN ++ LF ++ u "title: [" ++ LF ++ FENCE ++ u " Dear Sir ".

(** The lines [prepare_batch_requests] prints for a list of files. *)
Definition encoding_lines (pdf_files : list Path) : list event :=
  map (λ p, Encoding (name p)) pdf_files.

(** The request [req] is the one built for the file [p] as the file system
    [fs] holds it. *)
Definition request_of_file {FS : Type} `{FileSystem FS} (self : processor)
    (fs : FS)
    (p : Path) (req : request) : Prop :=
  ∃ data source,
    fs_read_bytes fs p = Returned data
    ∧ parse_source_from_path p = Returned source
    ∧ req = request_dict self p (Base64.standard_b64encode data) source.

(** ** Reading base64 back *)

(** The value of a base64 character; [digit] is its inverse on 0..63. *)
Definition b64_value (c : codepoint) : N :=
  (if (65 <=? c) && (c <=? 90) then c - 65
   else if (97 <=? c) && (c <=? 122) then c - 71
   else if (48 <=? c) && (c <=? 57) then c + 4
   else if c =? 43 then 62 else 63)%N.

(** Four characters back to three bytes (fewer before padding). *)
Fixpoint b64_decode (s : str) : list N :=
  match s with
  | c0 :: c1 :: c2 :: c3 :: rest =>
      let b1 := N.lor (N.shiftl (b64_value c0) 2) (N.shiftr (b64_value c1) 4) in
      let b2 := N.lor (N.shiftl (N.land (b64_value c1) 15) 4)
                      (N.shiftr (b64_value c2) 2) in
      let b3 := N.lor (N.shiftl (N.land (b64_value c2) 3) 6) (b64_value c3) in
      if (c2 =? Base64.PAD)%N then [b1]
      else if (c3 =? Base64.PAD)%N then [b1; b2]
      else b1 :: b2 :: b3 :: b64_decode rest
  | _ => []
  end.

(** A character of the base64 alphabet, or the padding character. *)
Definition is_b64_char (c : codepoint) : bool :=
  in_range 65 90 c || in_range 97 122 c || in_range 48 57 c
  || (c =? 43)%N || (c =? 47)%N || (c =? Base64.PAD)%N.

(** The numbers below [n]. *)
Definition below (n : nat) : list N := map N.of_nat (seq 0 n).

(** [f] holds on all pairs below [n] and [m]. *)
Definition holds_below (n m : nat) (f : N → N → bool) : bool :=
  forallb (λ a, forallb (f a) (below m)) (below n).

(** ** wait_for_batch_completion *)

(** [message_batch.request_counts] *)
Record request_counts : Type := mkCounts {
  rc_succeeded : nat;
  rc_errored : nat;
  rc_canceled : nat;
  rc_expired : nat;
  rc_processing : nat
}.

(** What the loop reads of a batch: its status and its counts. *)
Record message_batch : Type := mkBatch {
  batch_id : str;
  processing_status : str;
  batch_counts : request_counts
}.

(** One constructor per [print] call of the polling loop (the time of day
    in the status line is left out). *)
Inductive poll_event : Type :=
  | PollWaiting
  | PollChecking (check_interval : Z)
  | PollStatus (status : str)
  | PollSucceeded (succeeded total : nat)
  | PollErrored (errored total : nat)
  | PollProcessing (processing total : nat)
  | PollBlank
  | PollComplete.

(** The loop's footprint: the calls made to the service, the seconds slept,
    the lines printed. *)
Record poll_state : Type := mkPoll {
  polled : nat;
  slept : Z;
  shown : list poll_event
}.

Definition ENDED : str := u "ended".

(** The lines one status check prints. *)
Definition status_lines (b : message_batch) : list poll_event :=
  let c := batch_counts b in
  let total := (rc_succeeded c + rc_errored c + rc_canceled c + rc_expired c
                + rc_processing c)%nat in
  [PollStatus (processing_status b); PollSucceeded (rc_succeeded c) total]
  ++ (if (0 <? rc_errored c)%nat then [PollErrored (rc_errored c) total]
      else [])
  ++ (if (0 <? rc_processing c)%nat
      then [PollProcessing (rc_processing c) total] else [])
  ++ [PollBlank].

(** The longest sleep CPython's clock can express, in seconds: beyond it,
    on either side, the conversion to nanoseconds overflows. *)
Definition MAX_SLEEP : Z := 9223372036%Z.

(** [time.sleep(secs)] for an [int]: the conversion is checked first, then
    the sign. *)
Definition sleep (secs : Z) : outcome unit :=
  if ((secs <? - MAX_SLEEP) || (MAX_SLEEP <? secs))%Z then Raised OverflowError
  else if (secs <? 0)%Z then Raised ValueError
  else Returned ().

Section Polling.
(** The service: what the [n]-th call of [batches.retrieve] answers. *)
Variable retrieve : nat → outcome message_batch.

(** The [while True] loop, for at most [fuel] status checks; [None] when
    the loop is still running after them. *)
Fixpoint wait_loop (check_interval : Z) (fuel : nat) (st : poll_state)
    : option (outcome message_batch * poll_state) :=
  match fuel with
  | O => None
  | S fuel' =>
      match retrieve (polled st) with
      | Raised e => Some (Raised e, mkPoll (S (polled st)) (slept st) (shown st))
      | Returned message_batch =>
          let shown' := shown st ++ status_lines message_batch in
          if str_eqb (processing_status message_batch) ENDED then
            Some (Returned message_batch,
                  mkPoll (S (polled st)) (slept st) (shown' ++ [PollComplete]))
          else
            match sleep check_interval with
            | Raised e =>
                Some (Raised e, mkPoll (S (polled st)) (slept st) shown')
            | Returned _ =>
                wait_loop check_interval fuel'
                  (mkPoll (S (polled st)) (slept st + check_interval) shown')
            end
      end
  end.

(** [wait_for_batch_completion(batch_id, check_interval)] *)
Definition wait_for_batch_completion (check_interval : Z) (fuel : nat)
    : option (outcome message_batch * poll_state) :=
  wait_loop check_interval fuel
    (mkPoll 0 0 [PollWaiting; PollChecking check_interval]).
End Polling.

(** The batch is still being worked on at the [i]-th check. *)
Definition still_running (retrieve : nat → outcome message_batch) (i : nat)
    : Prop :=
  ∃ b, retrieve i = Returned b ∧ processing_status b ≠ ENDED.

(** A service that ends the batch at the third check. *)
Definition running_batch : message_batch :=
  mkBatch (u "msgbatch_01") (u "in_progress") (mkCounts 1 0 0 0 2).
Definition ended_batch : message_batch :=
  mkBatch (u "msgbatch_01") ENDED (mkCounts 2 1 0 0 0).
Definition three_checks (n : nat) : outcome message_batch :=
  if (n <? 2)%nat then Returned running_batch else Returned ended_batch.

(** A service that never ends the batch. *)
Definition endless (n : nat) : outcome message_batch := Returned running_batch.

(** An errored result whose error dictionary holds both keys the report
    reads; any other result. *)
Definition reportable (r : batch_result) : Prop :=
  match result r with
  | errored error =>
      is_Some (lookup_key error (u "type"))
      ∧ is_Some (lookup_key error (u "message"))
  | _ => True
  end.

(** An errored result as the service's client dumps it: the kind and the
    message lie one level down, under [error]. *)
Definition nested_error : list (yaml_value * yaml_value) :=
  [(YStr (u "error"),
    YMap [(YStr (u "message"), YStr (u "too many pages"));
          (YStr (u "type"), YStr (u "invalid_request_error"))]);
   (YStr (u "type"), YStr (u "error"))].
Definition dumped_errored_result : batch_result :=
  mkResult (Some (u "memo")) (errored nested_error).
Definition dumped_batch : list batch_result :=
  [letter_result; dumped_errored_result; hollow_result].

(** The root anchors pathlib gives an absolute POSIX path. *)
Definition posix_anchor (r : str) : Prop := r = u "/" ∨ r = u "//".

(** A file system whose writes fail after the file was created empty (the
    text cannot be encoded). *)
Definition emptying_fs : FileSystem mem_fs := {|
  fs_read_bytes fs p := Raised OSError;
  fs_mkdir_parents fs p := (Returned (), fs);
  fs_write_text fs p text :=
    (Raised ValueError,
     mkMemFs (directories fs) (<[to_str p := written []]> (files fs)))
|}.

(** The document written for [letter_result]. *)
Definition letter_document : str := lines [
  u "---"; u "title: Letter"; u "creator:"; u "publication:"; u "source: ";
  u "date:"; u "people:"; u "organization:"; u "locations:"; u "themes:";
  u "tags:"; u "  - to-do"; u "  - source/primary";
  u "added: April 05, 2025"; u "---"; u "";
  u "## Overview"; u ""; u ""; u "";
  u "## Images"; u ""; u "![[letter.pdf]]"; u "";
  u "## Notes"; u ""; u ""; u "## Connections"; u ""; u "";
  u "## Transcription"; u ""; u "Dear Sir"; u "```yaml"; u "x: 1"; u "```"
].

(** The world after the good reply of [dumped_batch] was processed. *)
Definition after_letter : world mem_fs :=
  mkWorld
    (mkMemFs {[u "."; u "notes"]}
       (<[u "notes/letter.md" := written letter_document]> ∅))
    a_day [ProcessingResults; ItemWritten (u "letter")].

(** * Properties *)

(** ** Examples of the Python layer *)

Example strip_ex : strip (u "  a b ") = u "a b".
Proof. reflexivity. Qed.
Example find_ex : find (u "xx```yaml") (u "```") 0 = 2%Z.
Proof. reflexivity. Qed.
Example of_Z_ex : of_Z (-120) = u "-120".
Proof. reflexivity. Qed.
Example parts_ex :
  parts (of_str (u "/root/Archive/Collection/Box1/FolderA/doc.pdf"))
  = [u "/"; u "root"; u "Archive"; u "Collection"; u "Box1"; u "FolderA";
     u "doc.pdf"].
Proof. reflexivity. Qed.
Example parts_dslash_ex :
  parts (of_str (u "//srv/./a//b.pdf")) = [u "//"; u "srv"; u "a"; u "b.pdf"].
Proof. reflexivity. Qed.
Example stem_ex :
  map (λ s, stem (of_str (u s)))
      ["a/letter.pdf"; "archive.tar.gz"; ".hidden"; "trail."; "/"]%string
  = [u "letter"; u "archive.tar"; u ".hidden"; u "trail."; u ""].
Proof. reflexivity. Qed.
Example to_str_ex :
  map (λ s, to_str (parent (of_str (u s)))) ["/doc.pdf"; "doc.pdf"; "/a/b/c.pdf"]%string
  = [u "/"; u "."; u "/a/b"].
Proof. reflexivity. Qed.
Example joinpath_ex :
  map (λ s, to_str (joinpath (of_str (u "out/notes")) (u s))) ["doc.md"; "/etc/x.md"]%string
  = [u "out/notes/doc.md"; u "/etc/x.md"].
Proof. reflexivity. Qed.
Example source_ex :
  parse_source_from_path (of_str (u "/root/Archive/Collection/Box1/FolderA/doc.pdf"))
  = Returned (u "FolderA, Box1, Collection, Archive").
Proof. reflexivity. Qed.
Example source_short_ex :
  parse_source_from_path (of_str (u "/doc.pdf")) = Returned (u "/").
Proof. reflexivity. Qed.
Example strftime_ex : strftime_B_d_Y (mkDate 2025 April 5) = u "April 05, 2025".
Proof. reflexivity. Qed.
Example b64_ex :
  map (λ s, Base64.encode (u s)) [""; "f"; "fo"; "foo"; "foob"; "fooba"; "foobar"]%string
  = map u [""; "Zg=="; "Zm8="; "Zm9v"; "Zm9vYg=="; "Zm9vYmE="; "Zm9vYmFy"]%string.
Proof. reflexivity. Qed.


(** ** Strings: what [find] and the slices compute *)

Section StrFacts.
Implicit Types s sub : str.

Lemma startswith_spec s sub : startswith s sub = true ↔ sub `prefix_of` s.
Proof.
  revert s. induction sub as [|a sub IH]; intros [|b s]; simpl.
  - split; [intros _; apply prefix_nil | done].
  - split; [intros _; apply prefix_nil | done].
  - split; [done | intros Hp; by apply prefix_nil_not in Hp].
  - rewrite andb_true_iff, N.eqb_eq, IH. split.
    + intros [-> Hp]. by apply prefix_cons.
    + intros Hp. split; [by eapply prefix_cons_inv_1 | by eapply prefix_cons_inv_2].
Qed.

Lemma startswith_false s sub : startswith s sub = false ↔ ¬ sub `prefix_of` s.
Proof. rewrite <- startswith_spec. by destruct (startswith s sub). Qed.

Lemma find_in_eq sub s i :
  find_in sub s i =
    if startswith s sub then Some i
    else match s with [] => None | _ :: s' => find_in sub s' (S i) end.
Proof. by destruct s. Qed.

(** [find_in] answers the first offset at which [sub] starts. *)
Lemma find_in_Some sub s i j :
  find_in sub s i = Some j ↔
  ∃ k, j = (i + k)%nat ∧ (k <= length s)%nat ∧ sub `prefix_of` drop k s
       ∧ ∀ k', (k' < k)%nat → ¬ sub `prefix_of` drop k' s.
Proof.
  revert i j. induction s as [|c s IH]; intros i j; rewrite find_in_eq.
  - destruct (startswith [] sub) eqn:E.
    + apply startswith_spec in E. split.
      * intros [= <-]. exists 0%nat. repeat split; [lia | done | done | lia].
      * intros (k & -> & Hk & _ & _). simpl in Hk. f_equal. lia.
    + apply startswith_false in E. split; [done |].
      intros (k & _ & Hk & Hp & _). simpl in Hk.
      assert (k = 0%nat) as -> by lia. done.
  - destruct (startswith (c :: s) sub) eqn:E.
    + apply startswith_spec in E. split.
      * intros [= <-]. exists 0%nat. repeat split; [lia | simpl; lia | done | lia].
      * intros (k & -> & _ & _ & Hmin). destruct k as [|k]; [f_equal; lia |].
        exfalso. apply (Hmin 0%nat); [lia | done].
    + apply startswith_false in E. rewrite IH. split.
      * intros (k & -> & Hk & Hp & Hmin). exists (S k).
        repeat split; [lia | simpl; lia | done |].
        intros [|k'] Hlt; [done |]. simpl. apply Hmin. lia.
      * intros (k & -> & Hk & Hp & Hmin). destruct k as [|k]; [done |].
        exists k. repeat split; [lia | simpl in Hk; lia | done |].
        intros k' Hlt. apply (Hmin (S k')). lia.
Qed.

Lemma find_in_None sub s i :
  find_in sub s i = None ↔
  ∀ k, (k <= length s)%nat → ¬ sub `prefix_of` drop k s.
Proof.
  revert i. induction s as [|c s IH]; intros i; rewrite find_in_eq.
  - destruct (startswith [] sub) eqn:E.
    + apply startswith_spec in E. split; [done |].
      intros Hno. exfalso. by apply (Hno 0%nat).
    + apply startswith_false in E. split; [| done].
      intros _ k Hk. simpl in Hk. by assert (k = 0%nat) as -> by lia.
  - destruct (startswith (c :: s) sub) eqn:E.
    + apply startswith_spec in E. split; [done |].
      intros Hno. exfalso. apply (Hno 0%nat); [simpl; lia | done].
    + apply startswith_false in E. rewrite IH. split.
      * intros Hno [|k] Hk; [done |]. simpl. apply Hno. simpl in Hk. lia.
      * intros Hno k Hk. apply (Hno (S k)). simpl. lia.
Qed.

(** [find] from a position inside the string: the first occurrence at or
    after it. *)
Lemma find_first s sub (from j : nat) :
  first_at sub s from j → find s sub (Z.of_nat from) = Z.of_nat j.
Proof.
  intros (Hle & [Hj Hp] & Hmin). unfold find, len.
  replace (Z.of_nat from <? 0)%Z with false by (symmetry; apply Z.ltb_ge; lia).
  replace (Z.of_nat (length s) <? Z.of_nat from)%Z with false
    by (symmetry; apply Z.ltb_ge; lia).
  rewrite Nat2Z.id.
  assert (find_in sub (drop from s) from = Some j) as ->; [| done].
  apply find_in_Some. exists (j - from)%nat. repeat split.
  - lia.
  - rewrite length_drop. lia.
  - rewrite drop_drop. by replace (from + (j - from))%nat with j by lia.
  - intros k' Hk'. rewrite drop_drop. intros Hp'.
    apply (Hmin (from + k')%nat); [lia |]. split; [lia | done].
Qed.

Lemma find_none s sub (from : nat) :
  absent_from sub s from → find s sub (Z.of_nat from) = (-1)%Z.
Proof.
  intros Hno. unfold find, len.
  replace (Z.of_nat from <? 0)%Z with false by (symmetry; apply Z.ltb_ge; lia).
  destruct (Z.ltb_spec (Z.of_nat (length s)) (Z.of_nat from)); [done |].
  rewrite Nat2Z.id.
  assert (find_in sub (drop from s) from = None) as ->; [| done].
  apply find_in_None. intros k Hk. rewrite length_drop in Hk.
  rewrite drop_drop. intros Hp.
  apply (Hno (from + k)%nat); [lia |]. split; [lia | done].
Qed.

(** Conversely, whatever [find] answers is one of the two. *)
Lemma find_cases s sub (from : nat) :
  (find s sub (Z.of_nat from) = (-1)%Z ∧ absent_from sub s from)
  ∨ (∃ j, find s sub (Z.of_nat from) = Z.of_nat j ∧ first_at sub s from j).
Proof.
  destruct (decide (length s < from)%nat) as [Hlt|Hge].
  { left. assert (absent_from sub s from) as Hno.
    { intros k Hk [Hk' _]. lia. }
    split; [by apply find_none | done]. }
  destruct (find_in sub (drop from s) from) as [j|] eqn:E.
  - right. exists j. apply find_in_Some in E as (k & -> & Hk & Hp & Hmin).
    rewrite length_drop in Hk. rewrite drop_drop in Hp.
    assert (first_at sub s from (from + k)) as Hf.
    { split; [lia |]. split; [split; [lia | done] |].
      intros k' Hk' [_ Hp']. apply (Hmin (k' - from)%nat); [lia |].
      rewrite drop_drop. by replace (from + (k' - from))%nat with k' by lia. }
    split; [by apply find_first | done].
  - left. assert (absent_from sub s from) as Hno.
    { intros k Hk [Hk' Hp]. rewrite find_in_None in E.
      apply (E (k - from)%nat); [rewrite length_drop; lia |].
      rewrite drop_drop. by replace (from + (k - from))%nat with k by lia. }
    split; [by apply find_none | done].
Qed.

Lemma clip_inside s (i : nat) : (i <= length s)%nat → clip s (Z.of_nat i) = i.
Proof.
  intros Hi. unfold clip, len.
  replace (Z.of_nat i <? 0)%Z with false by (symmetry; apply Z.ltb_ge; lia).
  lia.
Qed.
End StrFacts.

Lemma find_first_inv (s sub : str) (from j : nat) :
  find s sub (Z.of_nat from) = Z.of_nat j → first_at sub s from j.
Proof.
  intros E. destruct (find_cases s sub from) as [[E' _]|(j' & E' & Hj')].
  - rewrite E' in E. lia.
  - rewrite E' in E. by apply Nat2Z.inj in E as ->.
Qed.

Lemma find_none_inv (s sub : str) (from : nat) :
  find s sub (Z.of_nat from) = (-1)%Z → absent_from sub s from.
Proof.
  intros E. destruct (find_cases s sub from) as [[_ Hno]|(j' & E' & _)].
  - done.
  - rewrite E' in E. lia.
Qed.

(** ** The fenced block, as [parse_claude_response] finds it *)

Section FenceFacts.
Implicit Types text pre block rest : str.

Lemma drop_fence_open (x : str) : drop 7 (FENCE_OPEN ++ x) = x.
Proof. reflexivity. Qed.

Lemma drop_fence (x : str) : drop 3 (FENCE ++ x) = x.
Proof. reflexivity. Qed.

Lemma fenced_find text pre block rest :
  fenced text pre block rest →
  let i := Z.of_nat (length pre) in
  let j := Z.of_nat (length pre + 7 + length block) in
  find text FENCE_OPEN 0 = i
  ∧ find text FENCE (i + 7) = j
  ∧ slice text (i + 7) j = block
  ∧ slice_from text (j + 3) = rest.
Proof.
  intros (Htext & Hopen & Hclose) i j. subst i j.
  assert (length text = length pre + 7 + length block + 3 + length rest)%nat
    as Hlen.
  { rewrite Htext, !length_app. simpl. lia. }
  assert (Z.of_nat (length pre) + 7 = Z.of_nat (length pre + 7))%Z as ->
    by lia.
  assert (Z.of_nat (length pre + 7 + length block) + 3
          = Z.of_nat (length pre + 7 + length block + 3))%Z as -> by lia.
  repeat split.
  - by apply (find_first text FENCE_OPEN 0).
  - by apply find_first.
  - unfold slice. rewrite !clip_inside by lia.
    replace (length pre + 7 + length block - (length pre + 7))%nat
      with (length block) by lia.
    rewrite Htext, <- drop_drop, drop_app_length, drop_fence_open.
    by rewrite take_app_length.
  - unfold slice_from. rewrite clip_inside by lia.
    rewrite Htext. rewrite <- !drop_drop, drop_app_length, drop_fence_open.
    by rewrite drop_app_length, drop_fence.
Qed.

(** Conversely: when both searches succeed, the text is fenced, and the
    two slices are its block and its rest. *)
Lemma found_fenced text (i j : nat) :
  first_at FENCE_OPEN text 0 i →
  first_at FENCE text (i + 7) j →
  fenced text (take i text)
    (slice text (Z.of_nat i + 7) (Z.of_nat j))
    (slice_from text (Z.of_nat j + 3)).
Proof.
  intros Hopen Hclose.
  pose proof Hopen as (_ & [Hi [t1 Ht1]] & _).
  pose proof Hclose as (Hij & [Hj [t2 Ht2]] & _).
  assert (length text = i + length (drop i text))%nat as Hli
    by (rewrite length_drop; lia).
  rewrite Ht1, length_app in Hli. simpl in Hli.
  assert (length text = j + length (drop j text))%nat as Hlj
    by (rewrite length_drop; lia).
  rewrite Ht2, length_app in Hlj. simpl in Hlj.
  assert (Z.of_nat i + 7 = Z.of_nat (i + 7))%Z as -> by lia.
  assert (Z.of_nat j + 3 = Z.of_nat (j + 3))%Z as -> by lia.
  unfold slice, slice_from. rewrite !clip_inside by lia.
  assert (drop (i + 7) text = t1) as Hd1.
  { by rewrite <- drop_drop, Ht1, drop_fence_open. }
  assert (drop (j + 3) text = t2) as Hd2.
  { by rewrite <- drop_drop, Ht2, drop_fence. }
  assert (drop (j - (i + 7)) t1 = FENCE ++ t2) as Hd3.
  { rewrite <- Hd1, drop_drop, <- Ht2. f_equal. lia. }
  assert (length (take i text) = i) as Hti by (rewrite length_take; lia).
  assert (length (take (j - (i + 7)) t1) = j - (i + 7))%nat as Htb.
  { rewrite length_take, <- Hd1, length_drop. lia. }
  rewrite Hd1, Hd2. split; [| split].
  - rewrite <- Hd3, take_drop, <- Ht1, take_drop. done.
  - by rewrite Hti.
  - rewrite Hti, Htb. by replace (i + 7 + (j - (i + 7)))%nat with j by lia.
Qed.

Lemma fenced_by_find text (i j : nat) :
  find text FENCE_OPEN (Z.of_nat 0) = Z.of_nat i →
  find text FENCE (Z.of_nat (i + 7)) = Z.of_nat j →
  fenced text (take i text)
    (slice text (Z.of_nat i + 7) (Z.of_nat j))
    (slice_from text (Z.of_nat j + 3)).
Proof.
  intros Hi Hj. apply found_fenced; by apply find_first_inv.
Qed.

(** A text is fenced or unfenced, as the two [find] calls decide. *)
Lemma find_fence_cases text :
  let yaml_start := find text FENCE_OPEN 0 in
  let yaml_end := find text FENCE (yaml_start + 7) in
  (((yaml_start =? -1) || (yaml_end =? -1))%Z = true ∧ unfenced text)
  ∨ (∃ i j : nat, yaml_start = Z.of_nat i ∧ yaml_end = Z.of_nat j
       ∧ first_at FENCE_OPEN text 0 i ∧ first_at FENCE text (i + 7) j).
Proof.
  intros yaml_start yaml_end. subst yaml_end yaml_start.
  destruct (find_cases text FENCE_OPEN 0) as [[E Hno]|(i & E & Hi)];
    change (Z.of_nat 0) with 0%Z in E; rewrite E.
  { left. split; [done | by left]. }
  assert (Z.of_nat i + 7 = Z.of_nat (i + 7))%Z as -> by lia.
  destruct (find_cases text FENCE (i + 7)) as [[E' Hno]|(j & E' & Hj)];
    rewrite E'.
  - left. split; [apply orb_true_r |]. right. by exists i.
  - right. by exists i, j.
Qed.

Lemma fenced_not_unfenced text pre block rest :
  fenced text pre block rest → ¬ unfenced text.
Proof.
  intros (_ & (_ & Hocc & Hmin) & (_ & Hocc' & _)) [Hno|(i & Hi & Hno)].
  - by apply (Hno (length pre)); [lia |].
  - destruct Hi as (_ & Hocci & Hmini).
    assert (i = length pre) as ->.
    { destruct (Nat.lt_trichotomy i (length pre)) as [Hlt|[->|Hgt]]; [| done |].
      - exfalso. apply (Hmin i); [lia | done].
      - exfalso. apply (Hmini (length pre)); [lia | done]. }
    apply (Hno (length pre + 7 + length block)%nat); [lia | done].
Qed.
End FenceFacts.

(** ** parse_claude_response *)

Ltac py_unfold :=
  unfold mbind, mret, Py_mbind, Py_mret, outcome_mbind, outcome_mret,
    py_bind, py_ret, try_except, lift, print, now, fs_update in *.

Section ParseFacts.
Context {FS : Type} `{Library}.
Implicit Types (text pre block rest : str) (w : world FS).

(** With a fenced block, the trimmed block goes to the loader and the
    trimmed rest is the transcription. *)
Lemma parse_fenced text pre block rest w :
  fenced text pre block rest →
  parse_claude_response text w
  = match safe_load (strip block) with
    | Returned metadata => (Returned (metadata, strip rest), w)
    | Raised e =>
        if is_YAMLError e
        then (Returned (empty_dict, strip rest), printed w (WarnYamlError e))
        else (Raised e, w)
    end.
Proof.
  intros Hf. pose proof (fenced_find _ _ _ _ Hf) as (Hi & Hj & Hb & Hr).
  simpl in Hi, Hj, Hb, Hr. unfold parse_claude_response.
  rewrite Hi, Hj, Hb, Hr.
  replace ((Z.of_nat (length pre) =? -1)%Z) with false
    by (symmetry; apply Z.eqb_neq; lia).
  replace ((Z.of_nat (length pre + 7 + length block) =? -1)%Z) with false
    by (symmetry; apply Z.eqb_neq; lia).
  simpl. py_unfold.
  destruct (safe_load (strip block)) as [v|e]; [done |].
  by destruct (is_YAMLError e).
Qed.

Lemma parse_loaded text pre block rest w (v : yaml_value) :
  fenced text pre block rest →
  safe_load (strip block) = Returned v →
  parse_claude_response text w = (Returned (v, strip rest), w).
Proof. intros Hf E. by rewrite (parse_fenced _ _ _ _ _ Hf), E. Qed.

(** A YAML error is swallowed: the metadata is the empty dictionary. *)
Lemma parse_yaml_error text pre block rest w :
  fenced text pre block rest →
  safe_load (strip block) = Raised YAMLError →
  parse_claude_response text w
  = (Returned (empty_dict, strip rest), printed w (WarnYamlError YAMLError)).
Proof. intros Hf E. by rewrite (parse_fenced _ _ _ _ _ Hf), E. Qed.

(** Any other exception of the loader leaves the function. *)
Lemma parse_other_error text pre block rest w (e : exn) :
  fenced text pre block rest →
  safe_load (strip block) = Raised e →
  is_YAMLError e = false →
  parse_claude_response text w = (Raised e, w).
Proof. intros Hf E He. by rewrite (parse_fenced _ _ _ _ _ Hf), E, He. Qed.

(** C1 (as amended). When the text holds a fenced block and the block,
    with leading and trailing whitespace trimmed, decodes to a mapping,
    [parse_claude_response] returns exactly that mapping as metadata and, as
    body, the text after the first closing marker, trimmed.  Only the first
    block is used: [rest] is arbitrary and may hold further fences. *)
Theorem parse_fenced_mapping text pre block rest w
    (m : list (yaml_value * yaml_value)) :
  fenced text pre block rest →
  safe_load (strip block) = Returned (YMap m) →
  parse_claude_response text w = (Returned (YMap m, strip rest), w).
Proof.
  intros Hf E. rewrite (parse_fenced text pre block rest w Hf).
  by rewrite E.
Qed.

(** C3 (as amended). When the opening marker is absent, or no closing
    marker follows it, [parse_claude_response] returns the empty mapping
    and the entire input text, unchanged (not trimmed), and does not
    raise; it prints one warning. *)
Theorem parse_without_fence text w :
  unfenced text →
  parse_claude_response text w
  = (Returned (empty_dict, text), printed w WarnNoYaml).
Proof.
  intros Hun. unfold parse_claude_response.
  destruct (find_fence_cases text) as [[-> _]|(i & j & _ & _ & Hi & Hj)].
  - done.
  - exfalso. by eapply fenced_not_unfenced; [eapply found_fenced |].
Qed.

(** C4 (the failing input). A fenced block that holds nothing decodes to
    [None], which is not a mapping; [parse_claude_response] returns that
    [None] as the metadata, not the empty mapping. *)
Theorem parse_empty_block_returns_None w :
  safe_load [] = Returned YNull →
  parse_claude_response empty_block_reply w
  = (Returned (YNull, u "Dear Sir"), w)
  ∧ YNull ≠ empty_dict.
Proof.
  intros E. split; [| done].
  assert (fenced empty_block_reply [] LF (LF ++ u "Dear Sir")) as Hf.
  { exact (fenced_by_find empty_block_reply 0 8 eq_refl eq_refl). }
  by rewrite (parse_loaded _ _ _ _ w YNull Hf).
Qed.
End ParseFacts.

Lemma letter_reply_fenced :
  fenced letter_reply (u "Here it is:" ++ LF) letter_block letter_rest.
Proof. exact (fenced_by_find letter_reply 12 34 eq_refl eq_refl). Defined.

Lemma parse_fenced_mapping_witness :
  @parse_claude_response mem_fs table_library letter_reply world0
  = (Returned (YMap letter_mapping,
               u "Dear Sir" ++ LF ++ FENCE_OPEN ++ LF ++ u "x: 1" ++ LF ++ FENCE),
     world0).
Proof.
  apply (@parse_fenced_mapping mem_fs table_library letter_reply
           (u "Here it is:" ++ LF) letter_block letter_rest world0
           letter_mapping).
  - exact letter_reply_fenced.
  - reflexivity.
Defined.

(** C1, as stated, fails on an indented block: the text strictly between
    the markers decodes to a mapping, but the code decodes the trimmed
    text, which is not a YAML document any more, and returns the empty
    mapping. *)
Lemma indented_block_is_lost :
  fenced indented_reply [] indented_block (LF ++ u "Dear Sir")
  ∧ @safe_load table_library indented_block = Returned (YMap indented_mapping)
  ∧ @parse_claude_response mem_fs table_library indented_reply world0
    = (Returned (empty_dict, u "Dear Sir"),
       printed world0 (WarnYamlError YAMLError))
  ∧ empty_dict ≠ YMap indented_mapping.
Proof.
  split; [exact (fenced_by_find indented_reply 0 40 eq_refl eq_refl) |].
  split; [reflexivity |]. split; [reflexivity | discriminate].
Qed.

Lemma plain_reply_unfenced : unfenced plain_reply.
Proof. left. by apply (find_none_inv plain_reply FENCE_OPEN 0). Defined.

Lemma parse_without_fence_witness :
  @parse_claude_response mem_fs table_library plain_reply world0
  = (Returned (empty_dict, plain_reply), printed world0 WarnNoYaml).
Proof.
  apply (@parse_without_fence mem_fs table_library plain_reply world0).
  exact plain_reply_unfenced.
Defined.

(** C3, as stated, fails: the body of an unfenced reply is the reply as it
    came, with its surrounding whitespace. *)
Lemma unfenced_body_is_not_trimmed :
  unfenced plain_reply
  ∧ (@parse_claude_response mem_fs table_library plain_reply world0).1
    = Returned (empty_dict, plain_reply)
  ∧ plain_reply ≠ strip plain_reply.
Proof.
  split; [exact plain_reply_unfenced |]. split; [reflexivity | discriminate].
Qed.

Example unclosed_reply_unfenced :
  unfenced unclosed_reply
  ∧ (@parse_claude_response mem_fs table_library unclosed_reply world0).1
    = Returned (empty_dict, unclosed_reply).
Proof.
  split; [| reflexivity]. right. exists 0%nat. split.
  - by apply find_first_inv.
  - by apply (find_none_inv unclosed_reply FENCE 7).
Qed.

Lemma parse_empty_block_returns_None_witness :
  @parse_claude_response mem_fs table_library empty_block_reply world0
  = (Returned (YNull, u "Dear Sir"), world0)
  ∧ YNull ≠ empty_dict.
Proof.
  apply (@parse_empty_block_returns_None mem_fs table_library world0).
  reflexivity.
Defined.

(** A block that is not YAML at all: the error is swallowed. *)
Example parse_broken_block :
  (@parse_claude_response mem_fs table_library
     (FENCE_OPEN ++ LF ++ u "title: [" ++ LF ++ FENCE ++ u " Dear Sir ") world0)
  = (Returned (empty_dict, u "Dear Sir"),
     printed world0 (WarnYamlError YAMLError)).
Proof. reflexivity. Qed.

(** An exception of the loader that is no YAML error is not caught here. *)
Example parse_loader_failure :
  (@parse_claude_response mem_fs failing_library letter_reply world0).1
  = Raised ValueError.
Proof. reflexivity. Qed.

(** ** parse_source_from_path *)

Section SourceFacts.
Implicit Types (p : Path).

(** Indexing from the end reads the tail of the list. *)
Lemma py_index_end {A} (pre suf : list A) (k : nat) (x : A) :
  (0 < k <= length suf)%nat →
  suf !! (length suf - k)%nat = Some x →
  py_index (pre ++ suf) (- Z.of_nat k) = Returned x.
Proof.
  intros Hk Hx. unfold py_index. rewrite length_app.
  replace (- Z.of_nat k <? 0)%Z with true by (symmetry; apply Z.ltb_lt; lia).
  replace (- Z.of_nat k + Z.of_nat (length pre + length suf) <? 0)%Z
    with false by (symmetry; apply Z.ltb_ge; lia).
  replace (Z.to_nat (- Z.of_nat k + Z.of_nat (length pre + length suf)))
    with (length pre + (length suf - k))%nat by lia.
  by rewrite lookup_app_r, Nat.add_comm, Nat.add_sub, Hx by lia.
Qed.

(** A list of at least five elements ends in five elements. *)
Lemma last_five {A} (l : list A) :
  (5 <= length l)%nat →
  ∃ pre a b c d e, l = pre ++ [a; b; c; d; e].
Proof.
  intros Hl. exists (take (length l - 5) l).
  assert (length (drop (length l - 5) l) = 5)%nat as Hd
    by (rewrite length_drop; lia).
  destruct (drop (length l - 5) l) as [|a [|b [|c [|d [|e [|??]]]]]] eqn:E;
    try done.
  exists a, b, c, d, e. by rewrite <- E, take_drop.
Qed.

Lemma source_of_last_five p pre archive collection box folder file :
  parts p = pre ++ [archive; collection; box; folder; file] →
  parse_source_from_path p
  = Returned (folder ++ u ", " ++ box ++ u ", " ++ collection
                     ++ u ", " ++ archive).
Proof.
  intros E. unfold parse_source_from_path. rewrite E.
  replace (length (pre ++ [archive; collection; box; folder; file]) <? 5)%nat
    with false by (symmetry; apply Nat.ltb_ge; rewrite length_app; simpl; lia).
  rewrite (py_index_end pre _ 2 folder), (py_index_end pre _ 3 box),
    (py_index_end pre _ 4 collection), (py_index_end pre _ 5 archive);
    simpl; done || lia.
Qed.

(** [parse_source_from_path] never raises. *)
Lemma parse_source_total p : ∃ s, parse_source_from_path p = Returned s.
Proof.
  destruct (decide (length (parts p) < 5)%nat) as [Hlt|Hge].
  - exists (to_str (parent p)). unfold parse_source_from_path.
    by replace (length (parts p) <? 5)%nat with true
      by (symmetry; apply Nat.ltb_lt; lia).
  - destruct (last_five (parts p)) as (pre & a & b & c & d & e & E); [lia |].
    eexists. by apply (source_of_last_five p pre a b c d e).
Qed.

(** C5. A path of at least five segments yields the label
    "folder, box, collection, archive" read from its segments -2, -3, -4
    and -5; a path of fewer than five segments yields the string form of
    its parent directory. *)
Theorem source_label_or_parent p :
  ((5 <= length (parts p))%nat →
   ∃ pre archive collection box folder file,
     parts p = pre ++ [archive; collection; box; folder; file]
     ∧ parse_source_from_path p
       = Returned (folder ++ u ", " ++ box ++ u ", " ++ collection
                          ++ u ", " ++ archive))
  ∧ ((length (parts p) < 5)%nat →
     parse_source_from_path p = Returned (to_str (parent p))).
Proof.
  split.
  - intros Hl.
    destruct (last_five (parts p) Hl) as (pre & a & b & c & d & e & E).
    exists pre, a, b, c, d, e. split; [done |].
    by apply (source_of_last_five p pre a b c d e).
  - intros Hl. unfold parse_source_from_path.
    by replace (length (parts p) <? 5)%nat with true
      by (symmetry; apply Nat.ltb_lt; lia).
Qed.

(** An absolute path of exactly five parts: the label is built, and its
    fourth component is the root anchor. *)
Lemma source_of_five_parts p :
  is_absolute p = true →
  length (parts p) = 5%nat →
  ∃ a b c file,
    parts p = [root p; a; b; c; file]
    ∧ parse_source_from_path p
      = Returned (c ++ u ", " ++ b ++ u ", " ++ a ++ u ", " ++ root p)
    ∧ parse_source_from_path p ≠ Returned (to_str (parent p)).
Proof.
  intros Habs Hlen. unfold is_absolute in Habs. unfold parts in Hlen.
  assert (parts p = root p :: names p) as Hparts.
  { unfold parts. by destruct (root p). }
  destruct (root p) as [|r0 r] eqn:Hroot; [done |].
  destruct (names p) as [|a [|b [|c [|file [|??]]]]] eqn:Hnames; try done.
  exists a, b, c, file. split; [done |].
  assert (parse_source_from_path p
          = Returned (c ++ u ", " ++ b ++ u ", " ++ a ++ u ", " ++ r0 :: r))
    as Hsrc by (by apply (source_of_last_five p [] (r0 :: r) a b c file)).
  split; [done |]. rewrite Hsrc. intros [= Heq].
  apply (f_equal length) in Heq. revert Heq.
  unfold to_str, parent. rewrite Hnames, Hroot. simpl.
  repeat (rewrite length_app; simpl). lia.
Qed.

(** The root of a path read from a string is empty, [/] or [//]. *)
Lemma root_of_str (s : str) :
  root (of_str s) = [] ∨ posix_anchor (root (of_str s)).
Proof.
  unfold of_str, splitroot, posix_anchor. destruct s as [|c s]; [by left |].
  destruct (c =? SEP)%N; [| by left].
  destruct (_ =? 2)%nat; right; [by right | by left].
Qed.

(** C10 (as amended). An absolute path of exactly five parts (the root
    anchor, three directories, the file) does not fall back to the parent
    directory: the label is built, and its fourth component, the archive,
    is the root anchor itself, which is "/" or, for a path written with
    exactly two leading slashes, "//". *)
Theorem source_of_shallow_absolute_path (s : str) :
  is_absolute (of_str s) = true →
  length (parts (of_str s)) = 5%nat →
  ∃ a b c file,
    parts (of_str s) = [root (of_str s); a; b; c; file]
    ∧ posix_anchor (root (of_str s))
    ∧ parse_source_from_path (of_str s)
      = Returned (c ++ u ", " ++ b ++ u ", " ++ a ++ u ", " ++ root (of_str s))
    ∧ parse_source_from_path (of_str s)
      ≠ Returned (to_str (parent (of_str s))).
Proof.
  intros Habs Hlen.
  destruct (source_of_five_parts (of_str s) Habs Hlen)
    as (a & b & c & file & Hparts & Hsrc & Hne).
  exists a, b, c, file. split; [done |]. split; [| by split].
  destruct (root_of_str s) as [Hroot|Hroot]; [| done].
  unfold is_absolute in Habs. by rewrite Hroot in Habs.
Qed.
End SourceFacts.

Lemma source_label_or_parent_witness :
  parse_source_from_path
    (of_str (u "/root/Archive/Collection/Box1/FolderA/doc.pdf"))
  = Returned (u "FolderA, Box1, Collection, Archive")
  ∧ parse_source_from_path (of_str (u "/doc.pdf")) = Returned (u "/").
Proof.
  split.
  - destruct (source_label_or_parent
                (of_str (u "/root/Archive/Collection/Box1/FolderA/doc.pdf")))
      as [Hlong _].
    destruct Hlong as (pre & ar & co & bo & fo & fi & _ & _);
      [vm_compute; lia | reflexivity].
  - apply (source_label_or_parent (of_str (u "/doc.pdf"))).
    vm_compute. lia.
Defined.

Lemma source_of_shallow_absolute_path_witness :
  ∃ a b c file,
    parts (of_str (u "/a/b/c/doc.pdf"))
    = [root (of_str (u "/a/b/c/doc.pdf")); a; b; c; file]
    ∧ posix_anchor (root (of_str (u "/a/b/c/doc.pdf")))
    ∧ parse_source_from_path (of_str (u "/a/b/c/doc.pdf"))
      = Returned (c ++ u ", " ++ b ++ u ", " ++ a ++ u ", "
                    ++ root (of_str (u "/a/b/c/doc.pdf")))
    ∧ parse_source_from_path (of_str (u "/a/b/c/doc.pdf"))
      ≠ Returned (to_str (parent (of_str (u "/a/b/c/doc.pdf")))).
Proof.
  apply (source_of_shallow_absolute_path (u "/a/b/c/doc.pdf")); reflexivity.
Defined.

(** C10, as stated, fails on a path written with two leading slashes: it is
    absolute and has five parts, and the fourth component of its label is
    its anchor "//", not "/". *)
Lemma double_slash_anchor_is_the_archive :
  is_absolute (of_str (u "//a/b/c/doc.pdf")) = true
  ∧ parts (of_str (u "//a/b/c/doc.pdf"))
    = [u "//"; u "a"; u "b"; u "c"; u "doc.pdf"]
  ∧ parse_source_from_path (of_str (u "//a/b/c/doc.pdf"))
    = Returned (u "c, b, a, //")
  ∧ u "c, b, a, //" ≠ u "c, b, a, /".
Proof. repeat split. discriminate. Qed.

Example source_short_relative :
  map (λ s, parse_source_from_path (of_str (u s)))
      ["/a/b/c/doc.pdf"; "a/b/c/doc.pdf"; "/a/b/doc.pdf"; "doc.pdf";
       "//a/b/c/doc.pdf"]%string
  = map (λ s, Returned (u s))
      ["c, b, a, /"; "a/b/c"; "/a/b"; "."; "c, b, a, //"]%string.
Proof. reflexivity. Qed.

(** ** prepare_batch_requests *)

Section RequestFacts.
Context {FS : Type} `{FileSystem FS}.
Implicit Types (w : world FS) (self : processor).

(** The loop reads the files and prints; its result is [requests_for] of
    what it read, after the requests it started with. *)
Lemma prepare_loop_result self pdf_files requests w :
  (prepare_loop self pdf_files requests w).1
  = (more ← requests_for self (fs_read_bytes (fs w)) pdf_files;
     Returned (requests ++ more)).
Proof.
  revert requests w. induction pdf_files as [|p rest IH]; intros requests w.
  - simpl. by rewrite app_nil_r.
  - simpl. py_unfold. unfold encode_pdf. simpl.
    destruct (fs_read_bytes (fs w) p) as [data|e]; [| done]. simpl.
    destruct (parse_source_from_path p) as [source|e]; [| done]. simpl.
    rewrite IH. simpl.
    destruct (requests_for self (fs_read_bytes (fs w)) rest) as [more|e];
      [| done].
    simpl. by rewrite <- app_assoc.
Qed.

Lemma prepare_result self pdf_files w :
  (prepare_batch_requests self pdf_files w).1
  = requests_for self (fs_read_bytes (fs w)) pdf_files.
Proof.
  unfold prepare_batch_requests. rewrite prepare_loop_result.
  by destruct (requests_for self (fs_read_bytes (fs w)) pdf_files).
Qed.

Lemma requests_for_ext self (read1 read2 : Path → outcome (list byte))
    pdf_files :
  (∀ p, p ∈ pdf_files → read1 p = read2 p) →
  requests_for self read1 pdf_files = requests_for self read2 pdf_files.
Proof.
  induction pdf_files as [|p rest IH]; intros Hsame; [done |].
  simpl. rewrite (Hsame p) by left.
  rewrite IH; [done |]. intros p' Hp'. apply Hsame. by right.
Qed.

Lemma requests_for_ids self read pdf_files requests :
  requests_for self read pdf_files = Returned requests →
  map custom_id requests = map stem pdf_files.
Proof.
  revert requests. induction pdf_files as [|p rest IH]; intros requests.
  - by intros [= <-].
  - simpl. destruct (read p) as [data|e]; [| done]. simpl.
    destruct (parse_source_from_path p) as [source|e]; [| done]. simpl.
    destruct (requests_for self read rest) as [more|e]; [| done]. simpl.
    intros [= <-]. simpl. f_equal. by apply IH.
Qed.

Lemma requests_for_total self read pdf_files :
  (∀ p, p ∈ pdf_files → ∃ data, read p = Returned data) →
  ∃ requests, requests_for self read pdf_files = Returned requests.
Proof.
  induction pdf_files as [|p rest IH]; intros Hread; [by eexists |].
  simpl. destruct (Hread p) as [data ->]; [by left |].
  destruct (parse_source_total p) as [source ->].
  destruct IH as [more ->]; [intros p' Hp'; apply Hread; by right |].
  by eexists.
Qed.

(** C8. Building the requests is deterministic: two runs that find the same
    contents in the files of the batch produce the same requests, whatever
    else differs between the two worlds; the run returns when every file
    can be read; and the identifier of each request is the stem of its
    path, the file's base name without its extension. *)
Theorem prepare_batch_requests_deterministic self pdf_files w1 w2 :
  (∀ p, p ∈ pdf_files →
        fs_read_bytes (fs w1) p = fs_read_bytes (fs w2) p) →
  (prepare_batch_requests self pdf_files w1).1
  = (prepare_batch_requests self pdf_files w2).1
  ∧ (∀ requests,
       (prepare_batch_requests self pdf_files w1).1 = Returned requests →
       map custom_id requests = map stem pdf_files)
  ∧ ((∀ p, p ∈ pdf_files →
           ∃ data, fs_read_bytes (fs w1) p = Returned data) →
     ∃ requests,
       (prepare_batch_requests self pdf_files w1).1 = Returned requests).
Proof.
  intros Hsame. rewrite !prepare_result. split; [| split].
  - by apply requests_for_ext.
  - apply requests_for_ids.
  - apply requests_for_total.
Qed.
End RequestFacts.

Lemma prepare_batch_requests_deterministic_witness :
  (prepare_batch_requests a_processor [letter_pdf; memo_pdf] archive_world).1
  = (prepare_batch_requests a_processor [letter_pdf; memo_pdf] other_world).1
  ∧ (∀ requests,
       (prepare_batch_requests a_processor [letter_pdf; memo_pdf]
          archive_world).1 = Returned requests →
       map custom_id requests = map stem [letter_pdf; memo_pdf])
  ∧ ((∀ p, p ∈ [letter_pdf; memo_pdf] →
           ∃ data, fs_read_bytes (fs archive_world) p = Returned data) →
     ∃ requests,
       (prepare_batch_requests a_processor [letter_pdf; memo_pdf]
          archive_world).1 = Returned requests).
Proof.
  apply (prepare_batch_requests_deterministic a_processor
           [letter_pdf; memo_pdf] archive_world other_world).
  intros p Hp. apply list_elem_of_In in Hp.
  destruct Hp as [<-|[<-|[]]]; reflexivity.
Defined.

Example prepared_requests :
  (prepare_batch_requests a_processor [letter_pdf; memo_pdf] archive_world)
  = (Returned
       [request_dict a_processor letter_pdf (u "JVBERg==")
          (u "FolderA, Box1, Collection, Archive");
        request_dict a_processor memo_pdf (u "JVA=") (u "scans")],
     mkWorld archive_fs a_day
       [Encoding (u "letter.pdf"); Encoding (u "memo.v2.pdf")])
  ∧ map custom_id
      [request_dict a_processor letter_pdf (u "JVBERg==")
         (u "FolderA, Box1, Collection, Archive");
       request_dict a_processor memo_pdf (u "JVA=") (u "scans")]
    = [u "letter"; u "memo.v2"].
Proof. split; reflexivity. Qed.

(** A file that cannot be read ends the run with the error. *)
Example prepare_missing_file :
  (prepare_batch_requests a_processor [letter_pdf; of_str (u "gone.pdf")]
     archive_world).1 = Raised OSError.
Proof. reflexivity. Qed.

(** ** create_obsidian_document *)

Section RenderFacts.
Context `{Library}.
Implicit Types (d : doc_metadata) (v : yaml_value)
  (entries : list (yaml_value * yaml_value)).

(** A dictionary always answers [get]; every field is present, defaulted
    when the key is missing. *)
Lemma ensure_fields_dict entries (today : date) :
  ensure_fields (YMap entries) today
  = Returned
      (mkDoc (default (YStr []) (lookup_key entries (u "title")))
             (default (YStr []) (lookup_key entries (u "creator")))
             (default (YStr []) (lookup_key entries (u "publication")))
             (default (YStr []) (lookup_key entries (u "source")))
             (default (YStr []) (lookup_key entries (u "date")))
             (default (YSeq []) (lookup_key entries (u "people")))
             (default (YSeq []) (lookup_key entries (u "organization")))
             (default (YSeq []) (lookup_key entries (u "locations")))
             (default (YSeq []) (lookup_key entries (u "themes")))
             [u "to-do"; u "source/primary"]
             (strftime_B_d_Y today)).
Proof. reflexivity. Qed.

Lemma list_lines_seq (elements : list yaml_value) :
  list_lines (YSeq elements) = Returned (element_lines elements).
Proof. by destruct elements. Qed.

Lemma list_lines_listlike v :
  listlike v → ∃ ls, list_lines v = Returned ls
                    ∧ Forall (λ l, key_of_line l = None) ls.
Proof.
  intros Hv. unfold list_lines. destruct (truthy v) eqn:E.
  - destruct (Hv E) as [elements ->]. eexists. split; [done |].
    apply Forall_forall. intros l Hl. apply list_elem_of_fmap in Hl.
    by destruct Hl as (x & -> & _).
  - by exists [].
Qed.

Lemma frontmatter_closed d (pl ol ll tl : list str) :
  list_lines (people d) = Returned pl →
  list_lines (organization d) = Returned ol →
  list_lines (locations d) = Returned ll →
  list_lines (themes d) = Returned tl →
  frontmatter_lines d = Returned (header_shape d pl ol ll tl).
Proof.
  intros Hp Ho Hl Ht. unfold frontmatter_lines, header_shape.
  rewrite Hp, Ho, Hl, Ht. simpl. by rewrite <- !app_assoc.
Qed.

Lemma header_keys_none (ls : list str) :
  Forall (λ l, key_of_line l = None) ls → header_keys ls = [].
Proof.
  induction 1 as [|l ls Hl _ IH]; [done |].
  unfold header_keys in *. simpl. by rewrite Hl.
Qed.

(** Whatever the values, the key lines of the header are the eleven keys,
    in the order of the code. *)
Lemma header_keys_shape d (pl ol ll tl : list str) :
  Forall (λ l, key_of_line l = None) pl →
  Forall (λ l, key_of_line l = None) ol →
  Forall (λ l, key_of_line l = None) ll →
  Forall (λ l, key_of_line l = None) tl →
  header_keys (header_shape d pl ol ll tl) = HEADER_KEYS.
Proof.
  intros Hp Ho Hl Ht. unfold header_shape, header_keys.
  rewrite !omap_app.
  fold (header_keys pl) (header_keys ol) (header_keys ll) (header_keys tl).
  rewrite (header_keys_none pl Hp), (header_keys_none ol Ho),
    (header_keys_none ll Hl), (header_keys_none tl Ht).
  assert (∀ key v, key ∈ [u "creator"; u "publication"; u "date"] →
            key_of_line (optional_line key v) = Some key) as Hopt.
  { intros key v Hkey. unfold optional_line.
    apply list_elem_of_In in Hkey.
    destruct Hkey as [<-|[<-|[<-|[]]]]; by destruct (truthy v). }
  simpl. rewrite !Hopt by (apply list_elem_of_In; simpl; tauto).
  reflexivity.
Qed.
End RenderFacts.

Section RenderClaims.
Context `{Library}.
Implicit Types (entries : list (yaml_value * yaml_value)).

Lemma sequence_under_lines entries (key : str) (elements : list yaml_value) :
  sequence_under entries key elements →
  list_lines (default (YSeq []) (lookup_key entries key))
  = Returned (element_lines elements).
Proof.
  intros [->|[-> ->]]; simpl; [apply list_lines_seq | done].
Qed.

(** C2 (as amended). For every metadata mapping, whichever keys it holds,
    whose four sequence-valued entries are missing, false or iterable, the
    header is complete: the rule, then the key lines title, creator,
    publication, source, date, people, organization, locations, themes in
    that order, each present even when its value is empty, the sequence
    keys each followed by their element lines, then the fixed tag list and
    the line with the date of generation; and this header opens the text
    of the document. *)
Theorem header_keys_fixed entries (today : date)
    (transcription pdf_filename : str) :
  (∀ key, key ∈ [u "people"; u "organization"; u "locations"; u "themes"] →
          listlike (default (YSeq []) (lookup_key entries key))) →
  ∃ d pl ol ll tl,
    ensure_fields (YMap entries) today = Returned d
    ∧ list_lines (people d) = Returned pl
    ∧ list_lines (organization d) = Returned ol
    ∧ list_lines (locations d) = Returned ll
    ∧ list_lines (themes d) = Returned tl
    ∧ frontmatter_lines d = Returned (header_shape d pl ol ll tl)
    ∧ header_keys (header_shape d pl ol ll tl) = HEADER_KEYS
    ∧ added d = strftime_B_d_Y today
    ∧ document_text (YMap entries) today transcription pdf_filename
      = Returned (join LF (content_parts (header_shape d pl ol ll tl)
                             (default (YStr []) (lookup_key entries (u "overview")))
                             pdf_filename transcription)).
Proof.
  intros Hseq. eexists.
  destruct (list_lines_listlike _ (Hseq (u "people") ltac:(set_solver)))
    as (pl & Hpl & Hpk).
  destruct (list_lines_listlike _ (Hseq (u "organization") ltac:(set_solver)))
    as (ol & Hol & Hok).
  destruct (list_lines_listlike _ (Hseq (u "locations") ltac:(set_solver)))
    as (ll & Hll & Hlk).
  destruct (list_lines_listlike _ (Hseq (u "themes") ltac:(set_solver)))
    as (tl & Htl & Htk).
  exists pl, ol, ll, tl.
  split; [apply ensure_fields_dict |].
  assert (frontmatter_lines
            (mkDoc (default (YStr []) (lookup_key entries (u "title")))
               (default (YStr []) (lookup_key entries (u "creator")))
               (default (YStr []) (lookup_key entries (u "publication")))
               (default (YStr []) (lookup_key entries (u "source")))
               (default (YStr []) (lookup_key entries (u "date")))
               (default (YSeq []) (lookup_key entries (u "people")))
               (default (YSeq []) (lookup_key entries (u "organization")))
               (default (YSeq []) (lookup_key entries (u "locations")))
               (default (YSeq []) (lookup_key entries (u "themes")))
               [u "to-do"; u "source/primary"] (strftime_B_d_Y today))
          = Returned (header_shape _ pl ol ll tl)) as Hfm
    by (by apply frontmatter_closed).
  do 4 (split; [done |]).
  split; [done |]. split; [by apply header_keys_shape |]. split; [done |].
  unfold document_text. rewrite ensure_fields_dict.
  cbn [mbind outcome_mbind dict_get]. by rewrite Hfm.
Qed.

(** C7 (as amended). For each of the sequence-valued keys people,
    organization, locations and themes, the header holds the bare key line
    followed by the lines of its elements: none when the value is the
    empty list or the key is missing, otherwise one indented line per
    element, in the order of the list. *)
Theorem sequences_one_line_per_element entries (today : date)
    (P O L T : list yaml_value) :
  sequence_under entries (u "people") P →
  sequence_under entries (u "organization") O →
  sequence_under entries (u "locations") L →
  sequence_under entries (u "themes") T →
  ∃ d,
    ensure_fields (YMap entries) today = Returned d
    ∧ frontmatter_lines d
      = Returned (header_shape d (element_lines P) (element_lines O)
                    (element_lines L) (element_lines T))
    ∧ ∀ elements, elements ∈ [P; O; L; T] →
        length (element_lines elements) = length elements
        ∧ ∀ i x, elements !! i = Some x →
                 element_lines elements !! i = Some (u "  - " ++ py_str x).
Proof.
  intros HP HO HL HT. eexists. split; [apply ensure_fields_dict |]. split.
  - apply frontmatter_closed; simpl; by apply sequence_under_lines.
  - intros elements _. unfold element_lines. split; [apply length_map |].
    intros i x Hx. by rewrite list_lookup_fmap, Hx.
Qed.

Context {FS : Type} `{FileSystem FS}.

(** The document is the text, written to the output path; when the text
    cannot be built, nothing changes; when the write fails, the file system
    is as the failed write left it. *)
Lemma create_obsidian_document_run (metadata : yaml_value)
    (transcription : str) (output_path : Path) (pdf_filename : str)
    (w : world FS) :
  create_obsidian_document metadata transcription output_path pdf_filename w
  = match document_text metadata (today w) transcription pdf_filename with
    | Returned text =>
        match fs_write_text (fs w) output_path text with
        | (r, fs') => (r, with_fs w fs')
        end
    | Raised e => (Raised e, w)
    end.
Proof.
  unfold create_obsidian_document. py_unfold. simpl.
  destruct (document_text metadata (today w) transcription pdf_filename)
    as [text|e]; [| done].
  by destruct (fs_write_text (fs w) output_path text).
Qed.
End RenderClaims.

Lemma header_keys_fixed_witness :
  ∃ d pl ol ll tl,
    ensure_fields (YMap letter_mapping) a_day = Returned d
    ∧ @list_lines table_library (people d) = Returned pl
    ∧ @list_lines table_library (organization d) = Returned ol
    ∧ @list_lines table_library (locations d) = Returned ll
    ∧ @list_lines table_library (themes d) = Returned tl
    ∧ @frontmatter_lines table_library d
      = Returned (@header_shape table_library d pl ol ll tl)
    ∧ header_keys (@header_shape table_library d pl ol ll tl) = HEADER_KEYS
    ∧ added d = strftime_B_d_Y a_day
    ∧ @document_text table_library (YMap letter_mapping) a_day
        (u "Dear Sir") (u "letter.pdf")
      = Returned (join LF (@content_parts table_library
                             (@header_shape table_library d pl ol ll tl)
                             (default (YStr [])
                                (lookup_key letter_mapping (u "overview")))
                             (u "letter.pdf") (u "Dear Sir"))).
Proof.
  apply (@header_keys_fixed table_library letter_mapping a_day
           (u "Dear Sir") (u "letter.pdf")).
  intros key Hkey. apply list_elem_of_In in Hkey.
  destruct Hkey as [<-|[<-|[<-|[<-|[]]]]]; intros Ht; discriminate Ht.
Defined.

(** C2, as stated, fails: the header has no key [organizations]; the code
    reads and writes the key [organization]. *)
Lemma header_has_no_organizations_key :
  (d ← ensure_fields (YMap letter_mapping) a_day;
   @frontmatter_lines table_library d) = Returned letter_header
  ∧ header_keys letter_header = HEADER_KEYS
  ∧ header_keys letter_header ≠ SPEC_HEADER_KEYS
  ∧ (u "organizations" ∉ header_keys letter_header)
  ∧ (u "organizations:" ∉ letter_header).
Proof.
  split; [reflexivity |]. split; [reflexivity |]. split; [discriminate |].
  split; intros Hin; apply list_elem_of_In in Hin; vm_compute in Hin;
    intuition discriminate.
Qed.

Lemma sequences_one_line_per_element_witness :
  ∃ d,
    ensure_fields (YMap jane_mapping) a_day = Returned d
    ∧ @frontmatter_lines table_library d
      = Returned
          (@header_shape table_library d
             (@element_lines table_library [YStr (u "[[Jane Doe]]")])
             (@element_lines table_library [])
             (@element_lines table_library [])
             (@element_lines table_library
                [YStr (u "[[Trade]]"); YStr (u "[[Law]]")]))
    ∧ ∀ elements,
        elements ∈ [[YStr (u "[[Jane Doe]]")]; []; [];
                    [YStr (u "[[Trade]]"); YStr (u "[[Law]]")]] →
        length (@element_lines table_library elements) = length elements
        ∧ ∀ i x, elements !! i = Some x →
                 (@element_lines table_library elements) !! i
                 = Some (u "  - " ++ @py_str table_library x).
Proof.
  apply (@sequences_one_line_per_element table_library jane_mapping a_day
           [YStr (u "[[Jane Doe]]")] [] []
           [YStr (u "[[Trade]]"); YStr (u "[[Law]]")]).
  - left. reflexivity.
  - right. split; reflexivity.
  - left. reflexivity.
  - left. reflexivity.
Defined.

(** C7, as stated, fails for the key [organizations]: a list under that key
    is not rendered, neither its key line nor a line for its element. *)
Lemma organizations_list_is_not_rendered :
  lookup_key acme_mapping (u "organizations")
  = Some (YSeq [YStr (u "[[Acme]]")])
  ∧ (d ← ensure_fields (YMap acme_mapping) a_day;
     @frontmatter_lines table_library d) = Returned letter_header
  ∧ (u "organizations:" ∉ letter_header)
  ∧ (u "  - [[Acme]]" ∉ letter_header).
Proof.
  split; [reflexivity |]. split; [reflexivity |].
  split; intros Hin; apply list_elem_of_In in Hin; vm_compute in Hin;
    intuition discriminate.
Qed.

(** A whole document, as it is written. *)
Example jane_document_written :
  @create_obsidian_document table_library mem_fs _ (YMap jane_mapping)
    (u "Dear Sir") (joinpath notes_dir (u "letter.md")) (u "letter.pdf")
    notes_world
  = (Returned (),
     with_fs notes_world
       (mkMemFs {[u "notes"]}
          (<[u "notes/letter.md" := written jane_document]> ∅))).
Proof. reflexivity. Qed.

(** Sequence fields that hold a string are rendered character by
    character; a number there cannot be rendered at all. *)
Example string_under_people :
  @list_lines table_library (YStr (u "Jo"))
  = Returned [u "  - J"; u "  - o"]
  ∧ @list_lines table_library (YInt 5) = Raised TypeError
  ∧ @list_lines table_library YNull = Returned [].
Proof. repeat split. Qed.

(** Metadata that is not a dictionary cannot be rendered. *)
Example render_None :
  @document_text table_library YNull a_day (u "Dear Sir") (u "letter.pdf")
  = Raised AttributeError.
Proof. reflexivity. Qed.

(** ** process_batch_results *)

Section ResultFacts.
Context {FS : Type} `{FileSystem FS} `{Library}.
Implicit Types (w : world FS) (c : counters) (r : batch_result)
  (results : list batch_result) (output_dir : Path).

(** One item comes back, with exactly one counter raised by one, unless it
    is an errored item whose error dictionary lacks a key of the report. *)
Lemma process_result_counts output_dir r c w :
  reportable r →
  ∃ c' w',
    process_result output_dir r c w = (Returned c', w')
    ∧ (c' = count_success c ∨ c' = count_failure c).
Proof.
  unfold process_result, reportable.
  destruct (result r) as [content|error| |].
  - intros _. destruct content as [|b content].
    + do 2 eexists. split; [reflexivity | by right].
    + py_unfold.
      destruct (parse_claude_response _ w) as [[[metadata transcription]|e] w1].
      * destruct (create_obsidian_document _ _ _ _ w1) as [[[]|e] w2].
        -- do 2 eexists. split; [reflexivity | by left].
        -- do 2 eexists. split; [reflexivity | by right].
      * do 2 eexists. split; [reflexivity | by right].
  - intros [[kind Hkind] [message Hmessage]]. py_unfold. unfold subscript.
    rewrite Hkind, Hmessage. do 2 eexists. split; [reflexivity | by right].
  - intros _. do 2 eexists. split; [reflexivity | by right].
  - intros _. do 2 eexists. split; [reflexivity | by right].
Qed.

Lemma count_success_ne_failure c : count_success c ≠ count_failure c.
Proof. destruct c. unfold count_success, count_failure. simpl. intros [=]. lia. Qed.

(** Over results that can all be reported the loop returns, and the
    counters have grown by the number of items. *)
Lemma process_results_total output_dir results c w :
  Forall reportable results →
  ∃ c' w',
    process_results output_dir results c w = (Returned c', w')
    ∧ items_counted c' = (items_counted c + length results)%nat.
Proof.
  intros Hall. revert c w.
  induction Hall as [|r rest Hr _ IH]; intros c w.
  - exists c, w. split; [done | unfold items_counted; simpl; lia].
  - destruct (process_result_counts output_dir r c w Hr) as (c1 & w1 & E & Hc).
    destruct (IH c1 w1) as (c' & w' & E' & Hsum).
    exists c', w'. split.
    + simpl. py_unfold. by rewrite E.
    + rewrite Hsum.
      destruct Hc as [->| ->]; destruct c; unfold items_counted; simpl; lia.
Qed.

(** The loop over a list in two pieces. *)
Lemma process_results_app output_dir (before after : list batch_result) c w
    c1 w1 :
  process_results output_dir before c w = (Returned c1, w1) →
  process_results output_dir (before ++ after) c w
  = process_results output_dir after c1 w1.
Proof.
  revert c w. induction before as [|r rest IH]; intros c w.
  - by intros [= -> ->].
  - simpl. py_unfold.
    destruct (process_result output_dir r c w) as [[c2|e] w2]; [| done].
    apply IH.
Qed.

(** An errored item whose error dictionary lacks the message (or the
    type): the report cannot be formatted. *)
Lemma process_result_unreportable output_dir (id : option str)
    (error : list (yaml_value * yaml_value)) c w :
  lookup_key error (u "message") = None →
  process_result output_dir (mkResult id (errored error)) c w
  = (Raised KeyError, w).
Proof.
  intros Hmessage. unfold process_result. cbn [result]. py_unfold.
  unfold subscript. rewrite Hmessage.
  by destruct (lookup_key error (u "type")).
Qed.

(** When every errored item of the list holds both keys of the report at
    the top of its error dictionary, the counters of the summary add up to
    the number of items. *)
Lemma counters_add_up_for_reportable_results results output_dir w (fs0 : FS) :
  Forall reportable results →
  fs_mkdir_parents (fs w) output_dir = (Returned (), fs0) →
  ∃ c w',
    process_batch_results results output_dir w = (Returned (), w')
    ∧ last (stdout w') = Some (Summary (n_succeeded c) (n_failed c))
    ∧ (n_succeeded c + n_failed c)%nat = length results.
Proof.
  intros Hall Hmk.
  destruct (process_results_total output_dir results (mkCounters 0 0)
              (printed (with_fs w fs0) ProcessingResults) Hall)
    as (c & w' & E & Hsum).
  exists c, (printed w' (Summary (n_succeeded c) (n_failed c))). split.
  - unfold process_batch_results. py_unfold. rewrite Hmk. simpl.
    unfold printed, with_fs in E. simpl in E. by rewrite E.
  - split; [apply last_snoc | exact Hsum].
Qed.

(** C6 (the failing input). An errored result as the client of the service
    dumps it keeps the kind and the message one level down, under
    [error]: its error dictionary has no key [message].  The report of
    such an item raises KeyError outside any [try]: the item is not
    counted, the items after it are not processed, and
    [process_batch_results] ends with the exception, without a summary. *)
Theorem errored_result_aborts_the_batch output_dir
    (before after : list batch_result) (id : option str)
    (error : list (yaml_value * yaml_value)) w (fs0 : FS) c1 w1 :
  lookup_key error (u "message") = None →
  fs_mkdir_parents (fs w) output_dir = (Returned (), fs0) →
  process_results output_dir before (mkCounters 0 0)
    (printed (with_fs w fs0) ProcessingResults) = (Returned c1, w1) →
  process_results output_dir (before ++ mkResult id (errored error) :: after)
    (mkCounters 0 0) (printed (with_fs w fs0) ProcessingResults)
  = (Raised KeyError, w1)
  ∧ process_batch_results (before ++ mkResult id (errored error) :: after)
      output_dir w
    = (Raised KeyError, w1).
Proof.
  intros Hmessage Hmk Hbefore.
  assert (process_results output_dir
            (before ++ mkResult id (errored error) :: after)
            (mkCounters 0 0) (printed (with_fs w fs0) ProcessingResults)
          = (Raised KeyError, w1)) as Hloop.
  { rewrite (process_results_app _ _ _ _ _ _ _ Hbefore). simpl. py_unfold.
    by rewrite process_result_unreportable. }
  split; [done |].
  unfold process_batch_results. py_unfold. rewrite Hmk. simpl.
  unfold printed, with_fs in Hloop. simpl in Hloop. by rewrite Hloop.
Qed.

(** C9. A succeeded item whose content list is empty is counted as failed:
    one line of output, the file system untouched (no file is written), and
    the loop goes on with the next item. *)
Theorem empty_content_counts_as_failed output_dir (id : option str)
    (rest : list batch_result) c w :
  let w' := printed w (ItemNoContent (default (u "unknown") id)) in
  process_result output_dir (mkResult id (succeeded [])) c w
  = (Returned (count_failure c), w')
  ∧ fs w' = fs w
  ∧ n_failed (count_failure c) = S (n_failed c)
  ∧ n_succeeded (count_failure c) = n_succeeded c
  ∧ process_results output_dir (mkResult id (succeeded []) :: rest) c w
    = process_results output_dir rest (count_failure c) w'.
Proof. repeat split. Qed.
End ResultFacts.

Lemma errored_result_aborts_the_batch_witness :
  @process_results mem_fs _ table_library notes_dir
    ([letter_result] ++ dumped_errored_result :: [hollow_result])
    (mkCounters 0 0)
    (printed (with_fs world0 (mkMemFs {[u "."; u "notes"]} ∅))
       ProcessingResults)
  = (Raised KeyError, after_letter)
  ∧ @process_batch_results mem_fs _ table_library
      ([letter_result] ++ dumped_errored_result :: [hollow_result])
      notes_dir world0
    = (Raised KeyError, after_letter).
Proof.
  apply (@errored_result_aborts_the_batch mem_fs _ table_library notes_dir
           [letter_result] [hollow_result] (Some (u "memo")) nested_error
           world0 (mkMemFs {[u "."; u "notes"]} ∅) (mkCounters 1 0));
    reflexivity.
Defined.

(** With the kind and the message at the top of the error dictionary, as
    the code expects them, the same batch runs to its summary. *)
Example flat_errors_are_reported :
  ∃ w',
    @process_batch_results mem_fs _ table_library
      [letter_result; errored_result; hollow_result] notes_dir world0
    = (Returned (), w')
    ∧ stdout w'
      = [ProcessingResults;
         ItemWritten (u "letter");
         ItemErrored (u "memo") (u "invalid_request_error")
           (u "too many pages");
         ItemNoContent (u "blank");
         Summary 1 2].
Proof. eexists. split; reflexivity. Qed.

(** The batch of the example, run: one document, three failures. *)
Example a_batch_run :
  let w' := (@process_batch_results mem_fs _ table_library a_batch notes_dir
               world0).2 in
  stdout w'
  = [ProcessingResults;
     ItemWritten (u "letter");
     ItemErrored (u "memo") (u "invalid_request_error") (u "too many pages");
     ItemNoContent (u "blank");
     ItemOther (u "unknown") (u "expired");
     Summary 1 3]
  ∧ map fst (map_to_list (files (fs w'))) = [u "notes/letter.md"].
Proof. split; reflexivity. Qed.

(** A reply whose block is empty is parsed, but its metadata, [None],
    cannot be rendered: the item fails and nothing is written.  So does an
    item whose identifier leads into a directory that does not exist. *)
Example unrenderable_items :
  @process_result mem_fs _ table_library notes_dir empty_block_result
    (mkCounters 0 0) notes_world
  = (Returned (mkCounters 0 1),
     printed notes_world (ItemException (u "void") AttributeError))
  ∧ @process_result mem_fs _ table_library notes_dir nested_result
      (mkCounters 0 0) notes_world
    = (Returned (mkCounters 0 1),
       printed notes_world (ItemException (u "box1/letter") OSError)).
Proof. split; reflexivity. Qed.

(** An exception of the loader that [parse_claude_response] lets through
    is caught by the loop. *)
Example loader_failure_is_caught :
  @process_result mem_fs _ failing_library notes_dir letter_result
    (mkCounters 0 0) notes_world
  = (Returned (mkCounters 0 1),
     printed notes_world (ItemException (u "letter") ValueError)).
Proof. reflexivity. Qed.

(** * Further properties of the code *)

(** ** Trimming *)

Section StripFacts.
Implicit Types s : str.

Lemma lstrip_spec s :
  ∃ l, s = l ++ lstrip s ∧ blank l
       ∧ ∀ c t, lstrip s = c :: t → isspace c = false.
Proof.
  induction s as [|a s (l & Hs & Hl & Hhead)]; simpl.
  - exists []. repeat split; [constructor | done].
  - destruct (isspace a) eqn:E.
    + exists (a :: l). split; [by rewrite Hs at 1 |].
      split; [by constructor | done].
    + exists []. split; [done |]. split; [constructor |].
      by intros c t [= <- _].
Qed.

Lemma rstrip_spec s :
  ∃ r, s = rstrip s ++ r ∧ blank r
       ∧ ∀ t c, rstrip s = t ++ [c] → isspace c = false.
Proof.
  unfold rstrip. destruct (lstrip_spec (rev s)) as (l & Hs & Hl & Hhead).
  exists (rev l). split; [| split].
  - rewrite <- rev_app_distr, <- Hs. by rewrite rev_involutive.
  - unfold blank. apply Forall_forall. intros c Hc.
    apply list_elem_of_In, in_rev, list_elem_of_In in Hc.
    revert c Hc. by apply Forall_forall.
  - intros t c Ht. apply (Hhead c (rev t)).
    rewrite <- (rev_involutive (lstrip (rev s))), Ht, rev_app_distr. done.
Qed.

(** [strip] removes whitespace, only whitespace, and all of it at both
    ends. *)
Lemma strip_spec s :
  ∃ l r, s = l ++ strip s ++ r ∧ blank l ∧ blank r ∧ trimmed (strip s).
Proof.
  unfold strip. destruct (lstrip_spec s) as (l & Hs & Hl & Hhead).
  destruct (rstrip_spec (lstrip s)) as (r & Hm & Hr & Hlast).
  exists l, r. split; [by rewrite <- Hm |]. split; [done |]. split; [done |].
  split; [| done]. intros c t Hc. apply (Hhead c (t ++ r)).
  rewrite Hm at 1. by rewrite Hc.
Qed.
End StripFacts.

(** ** Paths of the documents *)

Section PathFacts.
Implicit Types (p : Path) (s ext : str).

Lemma split_sep_plain s : SEP ∉ s → split_sep s = [s].
Proof.
  induction s as [|c s IH]; intros Hno; [done |].
  simpl. destruct (N.eqb_spec c SEP) as [->|Hne].
  - exfalso. apply Hno. by left.
  - rewrite IH; [done |]. intros Hin. apply Hno. by right.
Qed.

(** A string without a slash, other than the empty string and [.], is a
    relative path of one name. *)
Lemma of_str_plain s :
  SEP ∉ s → s ≠ [] → s ≠ u "." → of_str s = mkPath [] [s].
Proof.
  intros Hno Hne Hdot. unfold of_str, splitroot.
  destruct s as [|c s]; [done |].
  destruct (N.eqb_spec c SEP) as [->|Hc]; [exfalso; apply Hno; by left |].
  rewrite split_sep_plain by done. f_equal.
  unfold filter. simpl. by rewrite decide_True.
Qed.

Lemma joinpath_plain p s :
  SEP ∉ s → s ≠ [] → s ≠ u "." →
  joinpath p s = mkPath (root p) (names p ++ [s]).
Proof. intros Hno Hne Hdot. unfold joinpath. by rewrite of_str_plain. Qed.

Lemma name_snoc (r : str) (ns : list str) s : name (mkPath r (ns ++ [s])) = s.
Proof. unfold name. simpl. apply last_last. Qed.

Lemma parent_snoc p s : parent (mkPath (root p) (names p ++ [s])) = p.
Proof.
  unfold parent. simpl. destruct (names p ++ [s]) eqn:E.
  - by destruct (names p).
  - rewrite <- E, removelast_last. by destruct p.
Qed.

(** The last dot of [s.ext], when [ext] holds no dot, is the one before
    [ext]. *)
Lemma rfind_dot_suffix s ext :
  DOT ∉ ext → rfind_dot (s ++ DOT :: ext) = len s.
Proof.
  intros Hno. unfold rfind_dot.
  assert (find_in (u ".") (rev (s ++ DOT :: ext)) 0 = Some (length ext))
    as ->.
  { apply find_in_Some. exists (length ext).
    assert (rev (s ++ DOT :: ext) = rev ext ++ DOT :: rev s) as ->.
    { rewrite rev_app_distr. simpl. by rewrite <- app_assoc. }
    split; [done |]. split; [rewrite length_app, length_rev; simpl; lia |].
    split.
    - rewrite <- (length_rev ext), drop_app_length. by exists (rev s).
    - intros k Hk [t Ht].
      assert (rev ext !! k = Some DOT) as Hdot.
      { rewrite <- (length_rev ext) in Hk.
        apply (f_equal (λ l, l !! 0%nat)) in Ht.
        rewrite lookup_drop, lookup_app_l in Ht by lia.
        by rewrite Nat.add_0_r in Ht. }
      apply Hno. apply list_elem_of_lookup_2 in Hdot.
      by apply list_elem_of_In, in_rev, list_elem_of_In in Hdot. }
  unfold len. rewrite length_app. simpl. lia.
Qed.

Lemma stem_of_name p s ext :
  name p = s ++ DOT :: ext → s ≠ [] → ext ≠ [] → DOT ∉ ext → stem p = s.
Proof.
  intros Hname Hs Hext Hno. unfold stem. rewrite Hname.
  rewrite rfind_dot_suffix by done.
  assert (0 < length s)%nat by (destruct s; [done | simpl; lia]).
  assert (0 < length ext)%nat by (destruct ext; [done | simpl; lia]).
  assert (((0 <? len s) && (len s <? len (s ++ DOT :: ext) - 1))%Z = true)
    as ->.
  { unfold len. rewrite length_app. simpl.
    apply andb_true_iff. split; apply Z.ltb_lt; lia. }
  unfold slice, len. rewrite (clip_inside _ 0), (clip_inside _ (length s))
    by (rewrite ?length_app; simpl; lia).
  by rewrite Nat.sub_0_r, drop_0, take_app_length.
Qed.
End PathFacts.

Section PathClaims.
Implicit Types (p output_dir : Path) (id s : str).

Lemma split_sep_no_sep s : ∀ w, w ∈ split_sep s → SEP ∉ w.
Proof.
  induction s as [|c s IH]; simpl.
  - intros w Hw. apply list_elem_of_In in Hw as [<-|[]].
    by intros Hin%elem_of_nil.
  - destruct (N.eqb_spec c SEP) as [->|Hc].
    + intros w Hw. apply elem_of_cons in Hw as [->|Hw]; [| by apply IH].
      by intros Hin%elem_of_nil.
    + destruct (split_sep s) as [|w0 ws] eqn:E.
      * intros w Hw. apply list_elem_of_In in Hw as [<-|[]].
        intros Hin. apply elem_of_cons in Hin as [Heq|Hin]; [done |].
        by apply elem_of_nil in Hin.
      * intros w Hw. apply elem_of_cons in Hw as [->|Hw].
        -- intros Hin. apply elem_of_cons in Hin as [Heq|Hin]; [done |].
           by apply (IH w0); [left |].
        -- apply IH. by right.
Qed.

Lemma name_no_sep s : SEP ∉ name (of_str s).
Proof.
  unfold name, of_str. destruct (splitroot s) as [r rel]. simpl.
  set (ns := filter _ _).
  assert (∀ w, w ∈ ns → SEP ∉ w) as Hns.
  { intros w Hw. apply list_elem_of_filter in Hw as [_ Hw].
    by apply split_sep_no_sep in Hw. }
  clearbody ns. induction ns as [|w ns IH] using rev_ind.
  - simpl. by intros Hin%elem_of_nil.
  - rewrite last_last. apply Hns. apply elem_of_app. right. by left.
Qed.

Lemma clip_0 s : clip s 0 = 0%nat.
Proof. unfold clip, len. simpl. lia. Qed.

Lemma stem_prefix p : stem p `prefix_of` name p.
Proof.
  unfold stem. destruct (_ && _); [| done].
  unfold slice. rewrite clip_0, drop_0. apply prefix_take.
Qed.

(** X1. The identifier of a request, the stem of the path, is a name that can
    be used as a file name: it is the beginning of the file's name and,
    for a path read from a string, it holds no slash. *)
Theorem request_identifier_is_a_plain_name (self : processor) s
    (pdf_base64 source : str) :
  let id := custom_id (request_dict self (of_str s) pdf_base64 source) in
  id `prefix_of` name (of_str s) ∧ SEP ∉ id.
Proof.
  simpl. split; [apply stem_prefix |].
  intros Hin. apply (name_no_sep s).
  by eapply elem_of_prefix; [| apply stem_prefix].
Qed.

(** X2. For a file named [s.pdf], the name the document embeds,
    [custom_id + ".pdf"], is the name of the file again. *)
Theorem embedded_name_is_the_file_name (self : processor) p s
    (pdf_base64 source : str) :
  name p = s ++ u ".pdf" → s ≠ [] →
  custom_id (request_dict self p pdf_base64 source) = s
  ∧ custom_id (request_dict self p pdf_base64 source) ++ u ".pdf" = name p.
Proof.
  intros Hname Hs. simpl.
  assert (stem p = s) as ->; [| by rewrite Hname].
  apply (stem_of_name p s (u "pdf")); [done | done | done |].
  intros Hin. apply list_elem_of_In in Hin. vm_compute in Hin.
  intuition discriminate.
Qed.

Lemma md_name_plain id :
  SEP ∉ id →
  (SEP ∉ id ++ u ".md") ∧ id ++ u ".md" ≠ [] ∧ id ++ u ".md" ≠ u ".".
Proof.
  intros Hno. split; [| split].
  - intros Hin. apply elem_of_app in Hin as [Hin|Hin]; [done |].
    apply list_elem_of_In in Hin. vm_compute in Hin. intuition discriminate.
  - by destruct id.
  - intros Heq. apply (f_equal length) in Heq. rewrite length_app in Heq.
    simpl in Heq. lia.
Qed.

(** X3. An identifier without a slash names a document directly inside the
    output directory: the path [output_dir / (id + ".md")] has the parent
    [output_dir] and the name [id.md], and its stem is the identifier
    again. *)
Theorem document_path_inside_output_dir output_dir id :
  SEP ∉ id →
  let path := joinpath output_dir (id ++ u ".md") in
  parent path = output_dir
  ∧ name path = id ++ u ".md"
  ∧ (id ≠ [] → stem path = id).
Proof.
  intros Hno path. subst path.
  destruct (md_name_plain id Hno) as (H1 & H2 & H3).
  rewrite joinpath_plain by done.
  split; [apply parent_snoc |]. split; [apply name_snoc |].
  intros Hid. apply (stem_of_name _ id (u "md")); [| done | done |].
  - by rewrite name_snoc.
  - intros Hin. apply list_elem_of_In in Hin. vm_compute in Hin.
    intuition discriminate.
Qed.

(** X4. An identifier that starts with a slash is an absolute path: the
    document path is that path, whatever the output directory. *)
Theorem absolute_identifier_leaves_output_dir output_dir (rest : str) :
  let path := joinpath output_dir ((SEP :: rest) ++ u ".md") in
  path = of_str ((SEP :: rest) ++ u ".md") ∧ is_absolute path = true.
Proof.
  simpl. unfold joinpath, of_str, splitroot, is_absolute.
  rewrite N.eqb_refl.
  by destruct (_ =? 2)%nat.
Qed.
End PathClaims.

Lemma embedded_name_is_the_file_name_witness :
  custom_id (request_dict a_processor letter_pdf (u "JVBERg==") (u "x"))
  = u "letter"
  ∧ custom_id (request_dict a_processor letter_pdf (u "JVBERg==") (u "x"))
    ++ u ".pdf" = name letter_pdf.
Proof.
  apply (embedded_name_is_the_file_name a_processor letter_pdf (u "letter"));
    [reflexivity | discriminate].
Defined.

Lemma document_path_inside_output_dir_witness :
  parent (joinpath notes_dir (u "letter" ++ u ".md")) = notes_dir
  ∧ name (joinpath notes_dir (u "letter" ++ u ".md")) = u "letter" ++ u ".md"
  ∧ (u "letter" ≠ [] → stem (joinpath notes_dir (u "letter" ++ u ".md"))
                       = u "letter").
Proof.
  apply (document_path_inside_output_dir notes_dir (u "letter")).
  intros Hin. apply list_elem_of_In in Hin. vm_compute in Hin.
  intuition discriminate.
Defined.

(** ** The reply, from text to document *)

Section ReplyFacts.
Context {FS : Type} `{FileSystem FS} `{Library}.
Implicit Types (w : world FS) (c : counters) (text pre block rest : str)
  (output_dir : Path).


(** X5. In a fenced reply the body handed on is the text after the closing
    marker without the whitespace around it: what was cut off at both ends
    is whitespace only, and the body neither starts nor ends with
    whitespace. *)
Theorem parse_body_is_trimmed text pre block rest w
    (metadata : yaml_value) (body : str) (w' : world FS) :
  fenced text pre block rest →
  parse_claude_response text w = (Returned (metadata, body), w') →
  (∃ l r, rest = l ++ body ++ r ∧ blank l ∧ blank r) ∧ trimmed body.
Proof.
  intros Hf. rewrite (parse_fenced text pre block rest w Hf).
  destruct (strip_spec rest) as (l & r & Hrest & Hl & Hr & Ht).
  assert (body = strip rest → (∃ l r, rest = l ++ body ++ r ∧ blank l ∧ blank r)
                              ∧ trimmed body) as Hbody.
  { intros ->. split; [by exists l, r | done]. }
  destruct (safe_load (strip block)) as [v|e].
  - intros [= _ <- _]. by apply Hbody.
  - destruct (is_YAMLError e); [| done]. intros [= _ <- _]. by apply Hbody.
Qed.

(** X6. What the loader raises decides the outcome: a YAML error is
    swallowed (empty mapping, trimmed body, one warning), any other
    exception leaves [parse_claude_response] with the world untouched. *)
Theorem loader_exception_outcome text pre block rest w (e : exn) :
  fenced text pre block rest →
  safe_load (strip block) = Raised e →
  (e = YAMLError →
   parse_claude_response text w
   = (Returned (empty_dict, strip rest), printed w (WarnYamlError YAMLError)))
  ∧ (e ≠ YAMLError → parse_claude_response text w = (Raised e, w)).
Proof.
  intros Hf E. split.
  - intros ->. by apply parse_yaml_error with pre block.
  - intros Hne. apply parse_other_error with pre block rest; [done | done |].
    by destruct e.
Qed.

(** A succeeded item with content: parse, render and write, report. *)
Lemma process_result_succeeded output_dir (id : option str)
    (b : reply_block) (bs : list reply_block) c w :
  let custom := default (u "unknown") id in
  process_result output_dir (mkResult id (succeeded (b :: bs))) c w
  = match parse_claude_response (response_text_of (b :: bs)) w with
    | (Returned (metadata, transcription), w1) =>
        match create_obsidian_document metadata transcription
                (joinpath output_dir (custom ++ u ".md"))
                (custom ++ u ".pdf") w1 with
        | (Returned _, w2) =>
            (Returned (count_success c), printed w2 (ItemWritten custom))
        | (Raised e, w2) =>
            (Returned (count_failure c), printed w2 (ItemException custom e))
        end
    | (Raised e, w1) =>
        (Returned (count_failure c), printed w1 (ItemException custom e))
    end.
Proof.
  unfold process_result. cbn [result result_id]. py_unfold.
  destruct (parse_claude_response _ w) as [[[metadata transcription]|e] w1];
    [| done].
  by destruct (create_obsidian_document _ _ _ _ w1) as [[[]|e] w2].
Qed.


(** X8. When the output directory cannot be made, the exception of
    [mkdir] leaves [process_batch_results]: no item is processed, nothing
    is printed, and the file system is as the failed [mkdir] left it. *)
Theorem mkdir_failure_ends_the_run (results : list batch_result) output_dir w
    (e : exn) (fs1 : FS) :
  fs_mkdir_parents (fs w) output_dir = (Raised e, fs1) →
  process_batch_results results output_dir w
  = (Raised e, mkWorld fs1 (today w) (stdout w)).
Proof.
  intros E. unfold process_batch_results. py_unfold. by rewrite E.
Qed.

Lemma render_needs_a_dict (v : yaml_value) (today : date)
    (transcription pdf_filename : str) :
  (∀ entries, v ≠ YMap entries) →
  document_text v today transcription pdf_filename = Raised AttributeError.
Proof. intros Hv. destruct v; try done. by destruct (Hv entries). Qed.

(** X9. A reply whose block decodes to something that is not a mapping
    (nothing, a list, a plain string) cannot be rendered: the item is
    counted as failed with an AttributeError, and no file is written. *)
Theorem non_mapping_metadata_fails_the_item output_dir (id : option str)
    (b : reply_block) (bs : list reply_block) pre block rest
    (v : yaml_value) c w :
  fenced (response_text_of (b :: bs)) pre block rest →
  safe_load (strip block) = Returned v →
  (∀ entries, v ≠ YMap entries) →
  process_result output_dir (mkResult id (succeeded (b :: bs))) c w
  = (Returned (count_failure c),
     printed w (ItemException (default (u "unknown") id) AttributeError)).
Proof.
  intros Hf E Hv. rewrite process_result_succeeded. cbv zeta.
  rewrite (parse_loaded _ _ _ _ w v Hf E).
  rewrite create_obsidian_document_run.
  by rewrite render_needs_a_dict.
Qed.

(** X10. An exception of the loader that is not a YAML error is caught by
    the loop, not by the parser: the item is counted as failed with that
    exception, and no file is written. *)
Theorem loader_failure_fails_the_item output_dir (id : option str)
    (b : reply_block) (bs : list reply_block) pre block rest (e : exn) c w :
  fenced (response_text_of (b :: bs)) pre block rest →
  safe_load (strip block) = Raised e →
  e ≠ YAMLError →
  process_result output_dir (mkResult id (succeeded (b :: bs))) c w
  = (Returned (count_failure c),
     printed w (ItemException (default (u "unknown") id) e)).
Proof.
  intros Hf E Hne. rewrite process_result_succeeded. cbv zeta.
  rewrite (parse_other_error _ _ _ _ w e Hf E); [done |]. by destruct e.
Qed.
End ReplyFacts.

Section FallbackFacts.
Context {FS : Type} `{FileSystem FS} `{Library}.
Implicit Types (w : world FS) (c : counters) (text : str) (output_dir : Path).

Lemma parse_fallback text w :
  unfenced text →
  parse_claude_response text w
  = (Returned (empty_dict, text), printed w WarnNoYaml).
Proof.
  intros Hun. unfold parse_claude_response.
  destruct (find_fence_cases text) as [[-> _]|(i & j & _ & _ & Hi & Hj)];
    [done |].
  exfalso. by eapply fenced_not_unfenced; [eapply found_fenced |].
Qed.

(** Without metadata every header value is empty. *)
Lemma document_text_empty (today : date) (transcription pdf_filename : str) :
  document_text empty_dict today transcription pdf_filename
  = Returned (join LF (content_parts (empty_header today) (YStr [])
                         pdf_filename transcription)).
Proof. reflexivity. Qed.

(** X11. A reply without a fenced block still becomes a document: the header
    with every value empty, and the whole reply, untrimmed, as the
    transcription.  The item counts as succeeded when the write returns
    and as failed when it raises; the warning is printed either way, and
    the file system is as the write left it, also when the write failed. *)
Theorem unfenced_reply_becomes_a_bare_document output_dir (id : option str)
    (b : reply_block) (bs : list reply_block) c w :
  unfenced (response_text_of (b :: bs)) →
  let custom := default (u "unknown") id in
  let text := join LF (content_parts (empty_header (today w)) (YStr [])
                         (custom ++ u ".pdf") (response_text_of (b :: bs))) in
  process_result output_dir (mkResult id (succeeded (b :: bs))) c w
  = match fs_write_text (fs w) (joinpath output_dir (custom ++ u ".md")) text
    with
    | (Returned _, fs') =>
        (Returned (count_success c),
         mkWorld fs' (today w) (stdout w ++ [WarnNoYaml; ItemWritten custom]))
    | (Raised e, fs') =>
        (Returned (count_failure c),
         mkWorld fs' (today w)
           (stdout w ++ [WarnNoYaml; ItemException custom e]))
    end.
Proof.
  intros Hun custom text. subst custom text.
  rewrite process_result_succeeded. cbv zeta.
  rewrite (parse_fallback _ w Hun), create_obsidian_document_run.
  cbn [fs today printed]. rewrite document_text_empty.
  destruct (fs_write_text _ _ _) as [[[]|e] fs'];
    unfold printed, with_fs; cbn [fs today stdout];
    by rewrite <- app_assoc.
Qed.

Lemma response_text_without_text (content : list reply_block) :
  without_text content → response_text_of content = [].
Proof.
  induction 1 as [|b bs Hb _ IH]; [done |]. by destruct b.
Qed.

Lemma empty_text_unfenced : unfenced [].
Proof. left. by apply (find_none_inv [] FENCE_OPEN 0). Qed.

(** X12. A reply that has content but no text block is not the "no content"
    case: its text is empty, and a document with an empty header and an
    empty transcription is written for it and counted as succeeded. *)
Theorem reply_without_text_is_written_empty output_dir (id : option str)
    (b : reply_block) (bs : list reply_block) c w (fs' : FS) :
  without_text (b :: bs) →
  let custom := default (u "unknown") id in
  fs_write_text (fs w) (joinpath output_dir (custom ++ u ".md"))
    (join LF (content_parts (empty_header (today w)) (YStr [])
                (custom ++ u ".pdf") [])) = (Returned (), fs') →
  process_result output_dir (mkResult id (succeeded (b :: bs))) c w
  = (Returned (count_success c),
     mkWorld fs' (today w) (stdout w ++ [WarnNoYaml; ItemWritten custom])).
Proof.
  intros Hno custom Hwrite. subst custom.
  pose proof (response_text_without_text _ Hno) as Htext.
  rewrite process_result_succeeded. cbv zeta. rewrite Htext.
  rewrite (parse_fallback _ w empty_text_unfenced),
    create_obsidian_document_run.
  cbn [fs today printed]. rewrite document_text_empty, Hwrite.
  unfold printed, with_fs. cbn [fs today stdout]. by rewrite <- app_assoc.
Qed.
End FallbackFacts.

Section DocumentFacts.
Context `{Library}.
Implicit Types (metadata : yaml_value) (today : date)
  (entries : list (yaml_value * yaml_value)).

Lemma content_parts_tail (fm : list str) (overview : yaml_value)
    (pdf_filename transcription : str) :
  join LF (content_parts fm overview pdf_filename transcription)
  = join LF (content_parts fm overview pdf_filename []) ++ transcription.
Proof.
  unfold content_parts. cbn [join]. rewrite app_nil_r.
  by rewrite <- !app_assoc.
Qed.

(** X13. The transcription closes the document, verbatim, and nothing before
    it depends on it: the document is a head, fixed by the metadata, the
    date and the file name, followed by the transcription; when the
    metadata cannot be rendered, it cannot be rendered with any
    transcription. *)
Theorem transcription_closes_the_document metadata today
    (pdf_filename : str) :
  (∃ head, ∀ transcription,
      document_text metadata today transcription pdf_filename
      = Returned (head ++ transcription))
  ∨ (∃ e, ∀ transcription,
      document_text metadata today transcription pdf_filename = Raised e).
Proof.
  unfold document_text.
  destruct (ensure_fields metadata today) as [d|e]; [| right; by exists e].
  cbn [mbind outcome_mbind].
  destruct (dict_get metadata (u "overview") (YStr [])) as [overview|e];
    [| right; by exists e].
  destruct (frontmatter_lines d) as [fm|e]; [| right; by exists e].
  left. exists (join LF (content_parts fm overview pdf_filename [])).
  intros transcription. cbn [mbind outcome_mbind].
  by rewrite content_parts_tail.
Qed.

(** X14. Only the ten known keys reach the document: two mappings that
    agree on them render to the same text, whatever else they hold. *)
Theorem unknown_keys_are_ignored entries1 entries2 today
    (transcription pdf_filename : str) :
  (∀ key, key ∈ KNOWN_KEYS →
          lookup_key entries1 key = lookup_key entries2 key) →
  document_text (YMap entries1) today transcription pdf_filename
  = document_text (YMap entries2) today transcription pdf_filename.
Proof.
  intros Hsame. unfold document_text. rewrite !ensure_fields_dict.
  cbn [mbind outcome_mbind dict_get].
  rewrite !(Hsame (u "title")), !(Hsame (u "creator")),
    !(Hsame (u "publication")), !(Hsame (u "source")), !(Hsame (u "date")),
    !(Hsame (u "people")), !(Hsame (u "organization")),
    !(Hsame (u "locations")), !(Hsame (u "themes")),
    !(Hsame (u "overview"))
    by (apply list_elem_of_In; simpl; tauto).
  done.
Qed.
End DocumentFacts.

(** Witnesses of the properties above. *)

Lemma broken_reply_fenced :
  fenced broken_reply [] (LF ++ u "title: [" ++ LF) (u " Dear Sir ").
Proof. exact (fenced_by_find broken_reply 0 17 eq_refl eq_refl). Defined.

Lemma parse_body_is_trimmed_witness :
  (∃ l r, letter_rest = l ++ strip letter_rest ++ r ∧ blank l ∧ blank r)
  ∧ trimmed (strip letter_rest).
Proof.
  apply (@parse_body_is_trimmed mem_fs table_library letter_reply
           (u "Here it is:" ++ LF) letter_block letter_rest world0
           (YMap letter_mapping) (strip letter_rest) world0).
  - exact letter_reply_fenced.
  - reflexivity.
Defined.

Lemma loader_exception_outcome_witness :
  (YAMLError = YAMLError →
   @parse_claude_response mem_fs table_library broken_reply world0
   = (Returned (empty_dict, strip (u " Dear Sir ")),
      printed world0 (WarnYamlError YAMLError)))
  ∧ (YAMLError ≠ YAMLError →
     @parse_claude_response mem_fs table_library broken_reply world0
     = (Raised YAMLError, world0)).
Proof.
  apply (@loader_exception_outcome mem_fs table_library broken_reply []
           (LF ++ u "title: [" ++ LF) (u " Dear Sir ") world0 YAMLError).
  - exact broken_reply_fenced.
  - reflexivity.
Defined.

Lemma mkdir_failure_ends_the_run_witness :
  @process_batch_results unit locked_fs table_library a_batch notes_dir
    (mkWorld () a_day [])
  = (Raised OSError, mkWorld () a_day []).
Proof.
  apply (@mkdir_failure_ends_the_run unit locked_fs table_library a_batch
           notes_dir (mkWorld () a_day []) OSError ()).
  reflexivity.
Defined.

Lemma empty_block_reply_fenced :
  fenced empty_block_reply [] LF (LF ++ u "Dear Sir").
Proof. exact (fenced_by_find empty_block_reply 0 8 eq_refl eq_refl). Defined.

Lemma non_mapping_metadata_fails_the_item_witness :
  @process_result mem_fs _ table_library notes_dir empty_block_result
    (mkCounters 0 0) notes_world
  = (Returned (count_failure (mkCounters 0 0)),
     printed notes_world (ItemException (u "void") AttributeError)).
Proof.
  apply (@non_mapping_metadata_fails_the_item mem_fs _ table_library
           notes_dir (Some (u "void")) (reply_text empty_block_reply) []
           [] LF (LF ++ u "Dear Sir") YNull (mkCounters 0 0) notes_world).
  - exact empty_block_reply_fenced.
  - reflexivity.
  - discriminate.
Defined.

Lemma loader_failure_fails_the_item_witness :
  @process_result mem_fs _ failing_library notes_dir letter_result
    (mkCounters 0 0) notes_world
  = (Returned (count_failure (mkCounters 0 0)),
     printed notes_world (ItemException (u "letter") ValueError)).
Proof.
  apply (@loader_failure_fails_the_item mem_fs _ failing_library notes_dir
           (Some (u "letter")) (reply_other (u "thinking"))
           [reply_text letter_reply] (u "Here it is:" ++ LF) letter_block
           letter_rest ValueError (mkCounters 0 0) notes_world).
  - exact letter_reply_fenced.
  - reflexivity.
  - discriminate.
Defined.

Lemma unfenced_reply_becomes_a_bare_document_witness :
  @process_result mem_fs _ table_library notes_dir plain_result
    (mkCounters 0 0) notes_world
  = (Returned (mkCounters 1 0),
     mkWorld
       (mkMemFs {[u "notes"]}
          (<[u "notes/plain.md" :=
               written (join LF (@content_parts table_library
                                   (empty_header a_day) (YStr [])
                                   (u "plain.pdf") plain_reply))]> ∅))
       a_day [WarnNoYaml; ItemWritten (u "plain")]).
Proof.
  exact (@unfenced_reply_becomes_a_bare_document mem_fs _ table_library
           notes_dir (Some (u "plain")) (reply_text plain_reply) []
           (mkCounters 0 0) notes_world plain_reply_unfenced).
Defined.

Lemma reply_without_text_is_written_empty_witness :
  @process_result mem_fs _ table_library notes_dir thinking_result
    (mkCounters 0 0) notes_world
  = (Returned (mkCounters 1 0),
     mkWorld
       (mkMemFs {[u "notes"]}
          (<[u "notes/mute.md" :=
               written (join LF (@content_parts table_library
                                   (empty_header a_day) (YStr [])
                                   (u "mute.pdf") []))]> ∅))
       a_day [WarnNoYaml; ItemWritten (u "mute")]).
Proof.
  apply (@reply_without_text_is_written_empty mem_fs _ table_library
           notes_dir (Some (u "mute")) (reply_other (u "thinking"))
           [reply_other (u "tool_use")] (mkCounters 0 0) notes_world).
  - repeat constructor.
  - reflexivity.
Defined.

Lemma unknown_keys_are_ignored_witness :
  @document_text table_library (YMap acme_mapping) a_day (u "Dear Sir")
    (u "letter.pdf")
  = @document_text table_library (YMap letter_mapping) a_day (u "Dear Sir")
      (u "letter.pdf").
Proof.
  apply (@unknown_keys_are_ignored table_library acme_mapping letter_mapping).
  intros key Hkey. apply list_elem_of_In in Hkey. simpl in Hkey.
  repeat (destruct Hkey as [<-|Hkey]; [reflexivity |]). destruct Hkey.
Defined.

(** ** Preparing the batch *)

Section PrepareFacts.
Context {FS : Type} `{FileSystem FS}.
Implicit Types (w : world FS) (self : processor) (p : Path)
  (pdf_files : list Path).

Lemma prepare_loop_readable self pdf_files (requests : list request) w :
  (∀ p, p ∈ pdf_files → ∃ data, fs_read_bytes (fs w) p = Returned data) →
  ∃ more,
    prepare_loop self pdf_files requests w
    = (Returned (requests ++ more),
       mkWorld (fs w) (today w) (stdout w ++ encoding_lines pdf_files))
    ∧ Forall2 (request_of_file self (fs w)) pdf_files more.
Proof.
  revert requests w. induction pdf_files as [|p rest IH]; intros requests w Hread.
  - exists []. split; [| constructor]. simpl. rewrite !app_nil_r.
    by destruct w.
  - destruct (Hread p) as [data Hdata]; [by left |].
    destruct (parse_source_total p) as [source Hsource].
    destruct (IH (requests ++ [request_dict self p
                                 (Base64.standard_b64encode data) source])
                (printed w (Encoding (name p)))) as (more & Hrun & Hall).
    { intros q Hq. apply Hread. by right. }
    exists (request_dict self p (Base64.standard_b64encode data) source :: more).
    split.
    + simpl. py_unfold. unfold encode_pdf. cbn [fs].
      rewrite Hdata, Hsource. unfold printed in Hrun. rewrite Hrun.
      cbn [fs today stdout]. by rewrite <- !app_assoc.
    + constructor; [by exists data, source | done].
Qed.

Lemma prepare_loop_unreadable self (before after : list Path) p
    (requests : list request) w (e : exn) :
  (∀ q, q ∈ before → ∃ data, fs_read_bytes (fs w) q = Returned data) →
  fs_read_bytes (fs w) p = Raised e →
  prepare_loop self (before ++ p :: after) requests w
  = (Raised e,
     mkWorld (fs w) (today w) (stdout w ++ encoding_lines (before ++ [p]))).
Proof.
  revert requests w. induction before as [|q rest IH]; intros requests w Hread Hp.
  - simpl. py_unfold. unfold encode_pdf. cbn [fs]. by rewrite Hp.
  - destruct (Hread q) as [data Hdata]; [by left |].
    destruct (parse_source_total q) as [source Hsource].
    simpl. py_unfold. unfold encode_pdf. cbn [fs].
    rewrite Hdata, Hsource.
    pose proof (IH (requests ++ [request_dict self q
                                   (Base64.standard_b64encode data) source])
                  (printed w (Encoding (name q)))) as Hrun.
    unfold printed in Hrun. rewrite Hrun.
    + cbn [fs today stdout]. by rewrite <- !app_assoc.
    + intros q' Hq'. apply Hread. by right.
    + done.
Qed.

(** X15. When every file of the batch can be read, the run returns one
    request per file, in the order of the files, each holding the base64
    text of its file and the source label of its path; it prints one line
    per file and leaves the file system as it was. *)
Theorem one_request_per_file self pdf_files w :
  (∀ p, p ∈ pdf_files → ∃ data, fs_read_bytes (fs w) p = Returned data) →
  ∃ requests,
    prepare_batch_requests self pdf_files w
    = (Returned requests,
       mkWorld (fs w) (today w) (stdout w ++ encoding_lines pdf_files))
    ∧ Forall2 (request_of_file self (fs w)) pdf_files requests
    ∧ length requests = length pdf_files.
Proof.
  intros Hread.
  destruct (prepare_loop_readable self pdf_files [] w Hread)
    as (requests & Hrun & Hall).
  exists requests. split; [done |]. split; [done |].
  symmetry. by eapply Forall2_length.
Qed.

(** X16. The first file that cannot be read ends the run with its
    exception: no request is returned, the files after it are not touched,
    and the lines printed are those of the files up to and including it. *)
Theorem unreadable_file_ends_the_preparation self
    (before after : list Path) p w (e : exn) :
  (∀ q, q ∈ before → ∃ data, fs_read_bytes (fs w) q = Returned data) →
  fs_read_bytes (fs w) p = Raised e →
  prepare_batch_requests self (before ++ p :: after) w
  = (Raised e,
     mkWorld (fs w) (today w) (stdout w ++ encoding_lines (before ++ [p]))).
Proof. intros Hread Hp. by apply prepare_loop_unreadable. Qed.
End PrepareFacts.

Lemma one_request_per_file_witness :
  ∃ requests,
    prepare_batch_requests a_processor [letter_pdf; memo_pdf] archive_world
    = (Returned requests,
       mkWorld (fs archive_world) (today archive_world)
         (stdout archive_world ++ encoding_lines [letter_pdf; memo_pdf]))
    ∧ Forall2 (request_of_file a_processor (fs archive_world))
        [letter_pdf; memo_pdf] requests
    ∧ length requests = length [letter_pdf; memo_pdf].
Proof.
  apply (one_request_per_file a_processor [letter_pdf; memo_pdf]
           archive_world).
  intros p Hp. apply list_elem_of_In in Hp.
  destruct Hp as [<-|[<-|[]]]; eexists; reflexivity.
Defined.

Lemma unreadable_file_ends_the_preparation_witness :
  prepare_batch_requests a_processor
    ([letter_pdf] ++ of_str (u "gone.pdf") :: [memo_pdf]) archive_world
  = (Raised OSError,
     mkWorld (fs archive_world) (today archive_world)
       (stdout archive_world
        ++ encoding_lines ([letter_pdf] ++ [of_str (u "gone.pdf")]))).
Proof.
  apply (unreadable_file_ends_the_preparation a_processor [letter_pdf]
           [memo_pdf] (of_str (u "gone.pdf")) archive_world OSError).
  - intros q Hq. apply list_elem_of_In in Hq.
    destruct Hq as [<-|[]]. eexists. reflexivity.
  - reflexivity.
Defined.

(** ** The base64 text of a file *)

Section Base64Facts.
Import Base64.

Lemma holds_below_spec (n m : nat) (f : N → N → bool) :
  holds_below n m f = true →
  ∀ a b, (a < N.of_nat n)%N → (b < N.of_nat m)%N → f a b = true.
Proof.
  unfold holds_below, below. intros Hall a b Ha Hb.
  rewrite forallb_forall in Hall.
  assert (∀ k x, (x < N.of_nat k)%N → In x (map N.of_nat (seq 0 k))) as Hin.
  { intros k x Hx. apply in_map_iff. exists (N.to_nat x).
    split; [lia |]. apply in_seq. lia. }
  specialize (Hall a (Hin n a Ha)). rewrite forallb_forall in Hall.
  apply Hall, Hin, Hb.
Qed.

Lemma list_ind3 {A} (P : list A → Prop) :
  P [] → (∀ a, P [a]) → (∀ a b, P [a; b]) →
  (∀ a b c l, P l → P (a :: b :: c :: l)) →
  ∀ l, P l.
Proof.
  intros H0 H1 H2 H3. fix IH 1. intros [|a [|b [|c l]]].
  - exact H0.
  - apply H1.
  - apply H2.
  - apply H3, IH.
Qed.

(** A sextet comes back from its character, which is never the padding. *)
Lemma digit_value (i : N) :
  (i < 64)%N → b64_value (digit i) = i ∧ (digit i =? PAD)%N = false.
Proof.
  intros Hi.
  pose proof (holds_below_spec 64 1
    (λ i _, (b64_value (digit i) =? i)%N && negb (digit i =? PAD)%N)
    ltac:(vm_compute; reflexivity) i 0%N) as Hc.
  cbv beta in Hc. apply andb_true_iff in Hc as [H1 H2]; [| lia | lia].
  split; [by apply N.eqb_eq | by apply negb_true_iff].
Qed.

(** The first byte of a group, from its two sextets. *)
Lemma first_byte (a hb : N) :
  (a < 256)%N → (hb < 16)%N →
  let s0 := N.shiftr a 2 in
  let s1 := N.lor (N.shiftl (N.land a 3) 4) hb in
  (s0 < 64)%N ∧ (s1 < 64)%N
  ∧ N.lor (N.shiftl s0 2) (N.shiftr s1 4) = a ∧ N.land s1 15 = hb.
Proof.
  intros Ha Hb.
  pose proof (holds_below_spec 256 16
    (λ a hb, let s0 := N.shiftr a 2 in
             let s1 := N.lor (N.shiftl (N.land a 3) 4) hb in
             (s0 <? 64)%N && (s1 <? 64)%N
             && (N.lor (N.shiftl s0 2) (N.shiftr s1 4) =? a)%N
             && (N.land s1 15 =? hb)%N)
    ltac:(vm_compute; reflexivity) a hb Ha Hb) as Hc.
  cbv beta zeta in Hc. rewrite !andb_true_iff in Hc.
  destruct Hc as [[[H1 H2] H3] H4].
  cbv zeta. repeat split;
    [by apply N.ltb_lt | by apply N.ltb_lt | by apply N.eqb_eq
    | by apply N.eqb_eq].
Qed.

(** The second byte, from the low bits of the second sextet and the third
    sextet. *)
Lemma second_byte (b hc : N) :
  (b < 256)%N → (hc < 4)%N →
  let s2 := N.lor (N.shiftl (N.land b 15) 2) hc in
  (s2 < 64)%N ∧ (N.shiftr b 4 < 16)%N
  ∧ N.lor (N.shiftl (N.shiftr b 4) 4) (N.shiftr s2 2) = b
  ∧ N.land s2 3 = hc.
Proof.
  intros Hb Hc'.
  pose proof (holds_below_spec 256 4
    (λ b hc, let s2 := N.lor (N.shiftl (N.land b 15) 2) hc in
             (s2 <? 64)%N && (N.shiftr b 4 <? 16)%N
             && (N.lor (N.shiftl (N.shiftr b 4) 4) (N.shiftr s2 2) =? b)%N
             && (N.land s2 3 =? hc)%N)
    ltac:(vm_compute; reflexivity) b hc Hb Hc') as Hc.
  cbv beta zeta in Hc. rewrite !andb_true_iff in Hc.
  destruct Hc as [[[H1 H2] H3] H4].
  cbv zeta. repeat split;
    [by apply N.ltb_lt | by apply N.ltb_lt | by apply N.eqb_eq
    | by apply N.eqb_eq].
Qed.

(** The third byte, from the low bits of the third sextet and the fourth
    sextet. *)
Lemma third_byte (c : N) :
  (c < 256)%N →
  (N.shiftr c 6 < 4)%N ∧ (N.land c 63 < 64)%N
  ∧ N.lor (N.shiftl (N.shiftr c 6) 6) (N.land c 63) = c.
Proof.
  intros Hc'.
  pose proof (holds_below_spec 256 1
    (λ c _, (N.shiftr c 6 <? 4)%N && (N.land c 63 <? 64)%N
            && (N.lor (N.shiftl (N.shiftr c 6) 6) (N.land c 63) =? c)%N)
    ltac:(vm_compute; reflexivity) c 0%N Hc' ltac:(lia)) as Hc.
  cbv beta in Hc. rewrite !andb_true_iff in Hc.
  destruct Hc as [[H1 H2] H3].
  repeat split; [by apply N.ltb_lt | by apply N.ltb_lt | by apply N.eqb_eq].
Qed.
End Base64Facts.

Section Base64Claims.
Import Base64.

Lemma decode_encode (data : list N) :
  Forall (λ x, (x < 256)%N) data → b64_decode (encode data) = data.
Proof.
  induction data as [|a|a b|a b c rest IH] using list_ind3; intros Hall.
  - done.
  - apply Forall_cons_1 in Hall as [Ha _].
    destruct (first_byte a 0 Ha ltac:(lia)) as (H0 & H1 & Hb1 & _).
    rewrite N.lor_0_r in H1, Hb1.
    cbn [encode b64_decode]. rewrite N.eqb_refl.
    by rewrite (proj1 (digit_value _ H0)), (proj1 (digit_value _ H1)), Hb1.
  - apply Forall_cons_1 in Hall as [Ha Hall].
    apply Forall_cons_1 in Hall as [Hb _].
    destruct (second_byte b 0 Hb ltac:(lia)) as (H2 & Hhb & Hb2 & _).
    destruct (first_byte a (N.shiftr b 4) Ha Hhb) as (H0 & H1 & Hb1 & Hlow).
    rewrite N.lor_0_r in H2, Hb2.
    cbn [encode b64_decode].
    rewrite (proj2 (digit_value _ H2)), N.eqb_refl.
    rewrite (proj1 (digit_value _ H0)), (proj1 (digit_value _ H1)),
      (proj1 (digit_value _ H2)).
    by rewrite Hb1, Hlow, Hb2.
  - apply Forall_cons_1 in Hall as [Ha Hall].
    apply Forall_cons_1 in Hall as [Hb Hall].
    apply Forall_cons_1 in Hall as [Hc Hall].
    destruct (third_byte c Hc) as (Hhc & H3 & Hb3).
    destruct (second_byte b (N.shiftr c 6) Hb Hhc) as (H2 & Hhb & Hb2 & Hlow2).
    destruct (first_byte a (N.shiftr b 4) Ha Hhb) as (H0 & H1 & Hb1 & Hlow1).
    cbn [encode b64_decode].
    rewrite (proj2 (digit_value _ H2)), (proj2 (digit_value _ H3)).
    rewrite (proj1 (digit_value _ H0)), (proj1 (digit_value _ H1)),
      (proj1 (digit_value _ H2)), (proj1 (digit_value _ H3)).
    rewrite Hb1, Hlow1, Hb2, Hlow2, Hb3. by rewrite IH.
Qed.

Lemma bytes_below_256 (data : list byte) :
  Forall (λ x, (x < 256)%N) (map Byte.to_N data).
Proof.
  apply Forall_forall. intros x Hx. apply list_elem_of_fmap in Hx as (b & -> & _).
  pose proof (Byte.to_N_bounded b). lia.
Qed.

Lemma to_N_inj (d1 d2 : list byte) :
  map Byte.to_N d1 = map Byte.to_N d2 → d1 = d2.
Proof.
  revert d2. induction d1 as [|a d1 IH]; intros [|b d2]; try done.
  simpl. intros [= Hab Hrest]. f_equal; [| by apply IH].
  pose proof (Byte.of_to_N a) as Ha. rewrite Hab, Byte.of_to_N in Ha.
  by injection Ha.
Qed.

Lemma digit_is_b64_char (i : N) : is_b64_char (digit i) = true.
Proof.
  unfold is_b64_char, digit, in_range, PAD.
  repeat match goal with
         | |- context [(?x <? ?y)%N] => destruct (N.ltb_spec x y)
         | |- context [(?x =? ?y)%N] => destruct (N.eqb_spec x y)
         | |- context [(?x <=? ?y)%N] => destruct (N.leb_spec x y)
         end; simpl; try reflexivity; lia.
Qed.

Lemma encode_shape (data : list N) :
  length (encode data) = (4 * ((length data + 2) / 3))%nat
  ∧ Forall (λ c, is_b64_char c = true) (encode data).
Proof.
  induction data as [|a|a b|a b c rest [IHl IHc]] using list_ind3.
  - split; [done | constructor].
  - split; [done |]. cbn [encode].
    repeat (constructor; [apply digit_is_b64_char || reflexivity |]).
    constructor.
  - split; [done |]. cbn [encode].
    repeat (constructor; [apply digit_is_b64_char || reflexivity |]).
    constructor.
  - split.
    + cbn [encode length]. rewrite IHl.
      replace (S (S (S (length rest))) + 2)%nat
        with (1 * 3 + (length rest + 2))%nat by lia.
      rewrite Nat.div_add_l by lia. lia.
    + cbn [encode]. by repeat (constructor; [apply digit_is_b64_char |]).
Qed.

Context {FS : Type} `{FileSystem FS}.
Implicit Types (w : world FS) (p : Path).

(** X17. The text [encode_pdf] returns for a file of [n] bytes has
    [4 * ceil(n / 3)] characters, all of them letters, digits, [+], [/] or
    the padding [=]; reading the file changes nothing. *)
Theorem encoded_pdf_shape p w (data : list byte) :
  fs_read_bytes (fs w) p = Returned data →
  ∃ text,
    encode_pdf p w = (Returned text, w)
    ∧ length text = (4 * ((length data + 2) / 3))%nat
    ∧ Forall (λ c, is_b64_char c = true) text.
Proof.
  intros Hread. exists (standard_b64encode data). unfold encode_pdf.
  rewrite Hread. split; [done |].
  destruct (encode_shape (map Byte.to_N data)) as [Hl Hc].
  split; [| done]. unfold standard_b64encode. by rewrite Hl, length_map.
Qed.

(** X18. The encoding loses nothing: the bytes of the file can be read back
    from the text, so two files that are given the same text hold the same
    bytes. *)
Theorem encoded_pdf_is_lossless p1 p2 w1 w2 (data1 data2 : list byte) :
  fs_read_bytes (fs w1) p1 = Returned data1 →
  fs_read_bytes (fs w2) p2 = Returned data2 →
  (∀ text, (encode_pdf p1 w1).1 = Returned text →
           b64_decode text = map Byte.to_N data1)
  ∧ ((encode_pdf p1 w1).1 = (encode_pdf p2 w2).1 → data1 = data2).
Proof.
  intros H1 H2. unfold encode_pdf. rewrite H1, H2. cbn [fst]. split.
  - intros text [= <-]. apply decode_encode, bytes_below_256.
  - intros [= Heq]. apply to_N_inj.
    rewrite <- (decode_encode (map Byte.to_N data1)) by apply bytes_below_256.
    rewrite <- (decode_encode (map Byte.to_N data2)) by apply bytes_below_256.
    unfold standard_b64encode in Heq. by rewrite Heq.
Qed.
End Base64Claims.

Lemma encoded_pdf_shape_witness :
  ∃ text,
    encode_pdf letter_pdf archive_world = (Returned text, archive_world)
    ∧ length text = (4 * ((length [x25; x50; x44; x46] + 2) / 3))%nat
    ∧ Forall (λ c, is_b64_char c = true) text.
Proof.
  apply (encoded_pdf_shape letter_pdf archive_world [x25; x50; x44; x46]).
  reflexivity.
Defined.

Lemma encoded_pdf_is_lossless_witness :
  (∀ text, (encode_pdf letter_pdf archive_world).1 = Returned text →
           b64_decode text = map Byte.to_N [x25; x50; x44; x46])
  ∧ ((encode_pdf letter_pdf archive_world).1
     = (encode_pdf letter_pdf other_world).1 →
     [x25; x50; x44; x46] = [x25; x50; x44; x46]).
Proof.
  apply (encoded_pdf_is_lossless letter_pdf letter_pdf archive_world
           other_world [x25; x50; x44; x46] [x25; x50; x44; x46]);
    reflexivity.
Defined.

(** ** Waiting for the batch *)

Section PollingFacts.
Variable retrieve : nat → outcome message_batch.
Implicit Types (st : poll_state) (fuel k : nat) (check_interval : Z).


Lemma sleep_refused check_interval :
  (- MAX_SLEEP <= check_interval < 0)%Z →
  sleep check_interval = Raised ValueError.
Proof.
  intros Hint. unfold sleep.
  destruct (Z.ltb_spec check_interval (- MAX_SLEEP));
    destruct (Z.ltb_spec MAX_SLEEP check_interval);
    destruct (Z.ltb_spec check_interval 0);
    unfold MAX_SLEEP in *; simpl; done || lia.
Qed.

Lemma sleep_overflows check_interval :
  (check_interval < - MAX_SLEEP ∨ MAX_SLEEP < check_interval)%Z →
  sleep check_interval = Raised OverflowError.
Proof.
  intros Hint. unfold sleep.
  assert (((check_interval <? - MAX_SLEEP) || (MAX_SLEEP <? check_interval))%Z
          = true) as ->; [| done].
  apply orb_true_iff. destruct Hint; [left | right]; by apply Z.ltb_lt.
Qed.



Lemma wait_loop_sound check_interval fuel :
  ∀ st (b : message_batch) st',
    wait_loop retrieve check_interval fuel st = Some (Returned b, st') →
    processing_status b = ENDED
    ∧ ∃ k, (polled st <= k)%nat ∧ retrieve k = Returned b
           ∧ polled st' = S k
           ∧ ∀ i, (polled st <= i < k)%nat → still_running retrieve i.
Proof.
  induction fuel as [|fuel IH]; intros st b st'; [done |]. simpl.
  destruct (retrieve (polled st)) as [b0|e] eqn:E; [| done].
  unfold str_eqb. case_bool_decide as Hend.
  - intros [= <- <-]. split; [done |]. exists (polled st).
    repeat split; [lia | done | lia].
  - destruct (sleep check_interval); [| done]. intros Hrun.
    apply IH in Hrun as (Hb & k & Hk & Hret & Hpolled & Hbefore).
    cbn [polled] in *. split; [done |]. exists k.
    repeat split; [lia | done | done |].
    intros i Hi. destruct (decide (i = polled st)) as [->|Hne].
    + by exists b0.
    + apply Hbefore. lia.
Qed.

(** X20. The loop never hands back a batch that has not ended: whatever it
    returns is the answer of some check whose status is "ended", and no
    earlier check had ended. *)
Theorem wait_returns_only_ended_batches check_interval fuel
    (b : message_batch) st :
  wait_for_batch_completion retrieve check_interval fuel
  = Some (Returned b, st) →
  processing_status b = ENDED
  ∧ ∃ k, retrieve k = Returned b ∧ polled st = S k
         ∧ ∀ i, (i < k)%nat → still_running retrieve i.
Proof.
  intros Hrun. apply wait_loop_sound in Hrun
    as (Hb & k & _ & Hret & Hpolled & Hbefore).
  split; [done |]. exists k. repeat split; [done | done |].
  intros i Hi. apply Hbefore. cbn [polled]. lia.
Qed.


(** X22. With an interval that [time.sleep] does not accept, the first
    check still happens, but when the batch has not ended the loop ends
    there, after one check and without having slept: with a ValueError for
    a negative interval down to -9223372036 seconds, with an OverflowError
    for an interval beyond 9223372036 seconds on either side. *)
Theorem unusable_interval_stops_the_wait check_interval fuel
    (b : message_batch) :
  (check_interval < 0 ∨ MAX_SLEEP < check_interval)%Z →
  retrieve 0%nat = Returned b →
  processing_status b ≠ ENDED →
  ∃ lines,
    wait_for_batch_completion retrieve check_interval (S fuel)
    = Some (Raised (if (- MAX_SLEEP <=? check_interval)%Z
                       && (check_interval <? 0)%Z
                    then ValueError else OverflowError),
            mkPoll 1 0 lines).
Proof.
  intros Hint Hb Hne. unfold wait_for_batch_completion. simpl. rewrite Hb.
  unfold str_eqb. rewrite bool_decide_eq_false_2 by done.
  destruct (Z.leb_spec (- MAX_SLEEP) check_interval) as [Hlow|Hlow];
    destruct (Z.ltb_spec check_interval 0) as [Hneg|Hneg]; cbn [andb].
  - rewrite sleep_refused by lia. by eexists.
  - rewrite sleep_overflows by (right; unfold MAX_SLEEP in *; lia).
    by eexists.
  - rewrite sleep_overflows by (by left). by eexists.
  - unfold MAX_SLEEP in *. lia.
Qed.
End PollingFacts.



Lemma wait_returns_only_ended_batches_witness :
  processing_status ended_batch = ENDED
  ∧ ∃ k, three_checks k = Returned ended_batch
         ∧ polled (mkPoll 3 120
                     ([PollWaiting; PollChecking 60]
                      ++ status_lines running_batch
                      ++ status_lines running_batch
                      ++ status_lines ended_batch ++ [PollComplete])) = S k
         ∧ ∀ i, (i < k)%nat → still_running three_checks i.
Proof.
  apply (wait_returns_only_ended_batches three_checks 60 5 ended_batch).
  reflexivity.
Defined.


Lemma unusable_interval_stops_the_wait_witness :
  (∃ lines,
      wait_for_batch_completion endless (-5) (S 3)
      = Some (Raised ValueError, mkPoll 1 0 lines))
  ∧ (∃ lines,
      wait_for_batch_completion endless 10000000000 (S 3)
      = Some (Raised OverflowError, mkPoll 1 0 lines))
  ∧ (∃ lines,
      wait_for_batch_completion endless (-10000000000) (S 3)
      = Some (Raised OverflowError, mkPoll 1 0 lines)).
Proof.
  split; [| split].
  - apply (unusable_interval_stops_the_wait endless (-5) 3 running_batch);
      [lia | reflexivity | discriminate].
  - apply (unusable_interval_stops_the_wait endless 10000000000 3
             running_batch);
      [unfold MAX_SLEEP; lia | reflexivity | discriminate].
  - apply (unusable_interval_stops_the_wait endless (-10000000000) 3
             running_batch);
      [lia | reflexivity | discriminate].
Defined.

(** ** The source label, once more *)

(** X24. The source label never fails and looks at the end of the path
    only: [parse_source_from_path] returns for every path, and two paths
    of at least five parts whose last five parts are the same get the same
    label. *)
Theorem source_label_is_total_and_local (p q : Path)
    (pre_p pre_q five : list str) :
  length five = 5%nat →
  parts p = pre_p ++ five →
  parts q = pre_q ++ five →
  (∃ label, parse_source_from_path p = Returned label
            ∧ parse_source_from_path q = Returned label)
  ∧ ∀ r : Path, ∃ label, parse_source_from_path r = Returned label.
Proof.
  intros Hfive Hp Hq. split; [| apply parse_source_total].
  destruct five as [|a [|b [|c [|d [|e [|??]]]]]]; try done.
  eexists. split.
  - by apply (source_of_last_five p pre_p a b c d e).
  - by apply (source_of_last_five q pre_q a b c d e).
Qed.

Lemma source_label_is_total_and_local_witness :
  (∃ label,
      parse_source_from_path
        (of_str (u "/data/Archive/Collection/Box1/FolderA/letter.pdf"))
      = Returned label
      ∧ parse_source_from_path
          (of_str (u "Archive/Collection/Box1/FolderA/letter.pdf"))
        = Returned label)
  ∧ ∀ r : Path, ∃ label, parse_source_from_path r = Returned label.
Proof.
  apply (source_label_is_total_and_local
           (of_str (u "/data/Archive/Collection/Box1/FolderA/letter.pdf"))
           (of_str (u "Archive/Collection/Box1/FolderA/letter.pdf"))
           [u "/"; u "data"] []
           [u "Archive"; u "Collection"; u "Box1"; u "FolderA";
            u "letter.pdf"]); reflexivity.
Defined.

(** A write that fails after the file was created leaves the empty file
    behind, and the item is counted as failed all the same. *)
Example failed_write_leaves_an_empty_file :
  @process_result mem_fs emptying_fs table_library notes_dir plain_result
    (mkCounters 0 0) notes_world
  = (Returned (mkCounters 0 1),
     mkWorld
       (mkMemFs {[u "notes"]} (<[u "notes/plain.md" := written []]> ∅))
       a_day [WarnNoYaml; ItemException (u "plain") ValueError]).
Proof. reflexivity. Qed.
